(** * calendar-valley: the Tech Week extractor and the events merger

    A shallow embedding of [scripts/parse_tech_week_html.py] and
    [scripts/merge_events.py], and the properties of the specification
    that were checked against it.

    Conventions of the embedding.
    - A Python [str] is a Rocq [string].  A file is the string of its
      UTF-8 bytes, so a character outside ASCII is a run of bytes above
      127.  The delimiters of the CSV dialect, the newline characters and
      the literals of the scripts are ASCII, hence splitting and joining
      are the same on bytes and on code points.  [lower], [strip], [int]
      and the digit class of [re] act on ASCII only; bytes above 127 are
      left alone.
    - A dictionary read from a CSV file is a [gmap string value], a value
      being [None] or a [str].  The record an HTML container is parsed to
      has fixed keys and is a Rocq record.
    - A function that can raise returns a [result]; a function that
      prints or touches files threads a [World].
    - The libraries the scripts call are modelled as far as the scripts
      use them: [csv] with the dialect [excel], [difflib] without a junk
      predicate, the tree of BeautifulSoup with [find], [find_all] and
      [get_text].  [html.unescape] and the HTML parser are parameters.
      The limit of [csv] on the size of a field, the limit of [int] on the
      number of digits and a failure to write a file are left out; the
      similarity ratio is the rational that the float rounds. *)

From Stdlib Require Import Ascii String ZArith QArith DecimalString Sorted.
From Stdlib Require DecimalZ DecimalPos.
From stdpp Require Import gmap strings list fin_maps.

Close Scope Q_scope.
Open Scope Z_scope.
Open Scope nat_scope.

(* ===================================================================== *)
(** * Python primitives used by the two scripts                           *)
(* ===================================================================== *)

Module Py.

(** ** Exceptions and results *)

Inductive exn_kind :=
| FileNotFoundError | OSError | UnicodeDecodeError
| TypeError | AttributeError | ValueError | CsvError.

Record exn := Exn { kind : exn_kind; message : string }.

Inductive result (A : Type) :=
| Ok (a : A)
| Raise (e : exn).
Arguments Ok {A} a.
Arguments Raise {A} e.

Definition bind {A B} (m : result A) (k : A -> result B) : result B :=
  match m with
  | Ok a => k a
  | Raise e => Raise e
  end.

Declare Scope py_scope.
Delimit Scope py_scope with py.
Notation "'do' x <- m ; k" := (bind m (fun x => k))
  (at level 10, x name, m at level 100, k at level 200) : py_scope.

Fixpoint mapM {A B} (f : A -> result B) (l : list A) : result (list B) :=
  match l with
  | [] => Ok []
  | a :: l' => (do b <- f a; do bs <- mapM f l'; Ok (b :: bs))%py
  end.

(** ** Values of a dictionary read by [csv.DictReader] *)

Inductive value := VNone | VStr (s : string).

#[global] Instance value_eq_dec : EqDecision value.
Proof. solve_decision. Defined.

(** Python truthiness: [None] and [''] are false. *)
Definition truthy (v : option value) : bool :=
  match v with
  | Some (VStr (String _ _)) => true
  | _ => false
  end.

(** ** Characters *)

Definition LF : ascii := "010"%char.
Definition CR : ascii := "013"%char.
Definition dquote : ascii := "034"%char.
Definition comma : ascii := ","%char.
Definition space : ascii := " "%char.

Definition ascii_eqb (a b : ascii) : bool := Ascii.eqb a b.

Definition is_upper (c : ascii) : bool :=
  let n := nat_of_ascii c in (65 <=? n) && (n <=? 90).

Definition lower_char (c : ascii) : ascii :=
  if is_upper c then ascii_of_nat (nat_of_ascii c + 32) else c.

(** [str.isspace] on ASCII: TAB, LF, VT, FF, CR, FS, GS, RS, US, SPACE. *)
Definition isspace (c : ascii) : bool :=
  let n := nat_of_ascii c in
  ((9 <=? n) && (n <=? 13)) || ((28 <=? n) && (n <=? 32)).

Definition isdigit (c : ascii) : bool :=
  let n := nat_of_ascii c in (48 <=? n) && (n <=? 57).

Definition digit_val (c : ascii) : Z := Z.of_nat (nat_of_ascii c - 48).

(** ** [str] methods *)

Definition str_eqb (a b : string) : bool := String.eqb a b.

Definition is_empty (s : string) : bool :=
  match s with
  | EmptyString => true
  | String _ _ => false
  end.

(** [s.lower()] *)
Fixpoint lower (s : string) : string :=
  match s with
  | EmptyString => EmptyString
  | String c s' => String (lower_char c) (lower s')
  end.

(** [s.lstrip()], [s.rstrip()], [s.strip()] *)
Fixpoint lstrip (s : string) : string :=
  match s with
  | EmptyString => EmptyString
  | String c s' => if isspace c then lstrip s' else s
  end.

Fixpoint rstrip (s : string) : string :=
  match s with
  | EmptyString => EmptyString
  | String c s' =>
      let r := rstrip s' in
      if isspace c && is_empty r then EmptyString else String c r
  end.

Definition strip (s : string) : string := rstrip (lstrip s).

(** [s.startswith(p)] *)
Fixpoint startswith (p s : string) : bool :=
  match p, s with
  | EmptyString, _ => true
  | String a p', String b s' => ascii_eqb a b && startswith p' s'
  | String _ _, EmptyString => false
  end.

(** [needle in hay] *)
Fixpoint contains (needle hay : string) : bool :=
  startswith needle hay ||
  match hay with
  | EmptyString => false
  | String _ hay' => contains needle hay'
  end.

(** [s.replace(old, new)] for a non-empty [old]: occurrences are replaced
    from the left and do not overlap.  [skip] counts the characters of an
    occurrence still to be dropped. *)
Fixpoint replace_from (old new : string) (skip : nat) (s : string) : string :=
  match s with
  | EmptyString => EmptyString
  | String c s' =>
      match skip with
      | S k => replace_from old new k s'
      | O =>
          if startswith old s
          then new +:+ replace_from old new (String.length old - 1) s'
          else String c (replace_from old new 0 s')
      end
  end.

Definition replace (old new s : string) : string := replace_from old new 0 s.

(** [sep.join(l)] *)
Fixpoint join (sep : string) (l : list string) : string :=
  match l with
  | [] => EmptyString
  | [s] => s
  | s :: l' => s +:+ sep +:+ join sep l'
  end.

(** [x in l] for a list of strings *)
Definition str_in (x : string) (l : list string) : bool :=
  existsb (str_eqb x) l.

(** ** [int] and [str] on integers *)

(** The digits of an integer literal: digits, single underscores allowed
    between two digits.  [prev] tells whether the previous character was a
    digit. *)
Fixpoint int_digits (acc : Z) (prev : bool) (s : string) : option Z :=
  match s with
  | EmptyString => if prev then Some acc else None
  | String c s' =>
      if isdigit c then int_digits (10 * acc + digit_val c)%Z true s'
      else if ascii_eqb c "_"%char && prev then
        match s' with
        | String d _ => if isdigit d then int_digits acc false s' else None
        | EmptyString => None
        end
      else None
  end.

(** [int(s)]: surrounding whitespace is ignored, one sign is allowed.
    [None] stands for [ValueError]. *)
Definition int (s : string) : option Z :=
  match strip s with
  | String "+"%char s' => int_digits 0 false s'
  | String "-"%char s' => option_map Z.opp (int_digits 0 false s')
  | s' => int_digits 0 false s'
  end.

(** [str(n)] *)
Definition str (n : Z) : string := NilZero.string_of_int (Z.to_int n).

(** ** [re.search(r'\d+', s)]: the first maximal run of digits *)

Fixpoint take_digits (s : string) : string :=
  match s with
  | EmptyString => EmptyString
  | String c s' => if isdigit c then String c (take_digits s') else EmptyString
  end.

Fixpoint re_search_digits (s : string) : option string :=
  match s with
  | EmptyString => None
  | String c s' => if isdigit c then Some (take_digits s) else re_search_digits s'
  end.

(** ** Text files

    A file opened for reading in text mode with the default [newline]
    translates CRLF and a lone CR to LF; iterating over it, or calling
    [readline], yields the lines with their LF. *)

Fixpoint universal_newlines (s : string) : string :=
  match s with
  | EmptyString => EmptyString
  | String c s' =>
      if ascii_eqb c CR then
        match s' with
        | String d s'' =>
            if ascii_eqb d LF then String LF (universal_newlines s'')
            else String LF (universal_newlines s')
        | EmptyString => String LF EmptyString
        end
      else String c (universal_newlines s')
  end.

(** [cur] is the line being read. *)
Fixpoint lines_from (cur : string) (s : string) : list string :=
  match s with
  | EmptyString => if is_empty cur then [] else [cur]
  | String c s' =>
      if ascii_eqb c LF then (cur +:+ String LF EmptyString) :: lines_from EmptyString s'
      else lines_from (cur +:+ String c EmptyString) s'
  end.

Definition readlines (content : string) : list string :=
  lines_from EmptyString (universal_newlines content).

(** ** [csv.writer], dialect [excel], [QUOTE_MINIMAL] *)

Definition needs_quotes (s : string) : bool :=
  existsb (fun c => ascii_eqb c comma || ascii_eqb c dquote
                    || ascii_eqb c CR || ascii_eqb c LF)
          (list_ascii_of_string s).

Fixpoint double_quotes (s : string) : string :=
  match s with
  | EmptyString => EmptyString
  | String c s' =>
      if ascii_eqb c dquote then String dquote (String dquote (double_quotes s'))
      else String c (double_quotes s')
  end.

Definition quoted (s : string) : string :=
  String dquote (double_quotes s +:+ String dquote EmptyString).

Definition csv_field (s : string) : string :=
  if needs_quotes s then quoted s else s.

(** [None] is written as the empty field. *)
Definition csv_str (v : value) : string :=
  match v with
  | VNone => EmptyString
  | VStr s => s
  end.

Definition lineterminator : string := String CR (String LF EmptyString).

(** [writer.writerow(row)]: the text written.  A record of one empty
    field is written as two quotes. *)
Definition writerow (row : list value) : string :=
  match row with
  | [v] => if is_empty (csv_str v) then quoted EmptyString +:+ lineterminator
           else csv_field (csv_str v) +:+ lineterminator
  | _ => join (String comma EmptyString) (map (fun v => csv_field (csv_str v)) row)
         +:+ lineterminator
  end.

(** ** [csv.reader], dialect [excel]

    The parser of the [_csv] module, without the states that need an
    escape character.  The limit on the size of a field is not modelled. *)

Inductive ParserState :=
| START_RECORD | START_FIELD | IN_FIELD
| IN_QUOTED_FIELD | QUOTE_IN_QUOTED_FIELD | EAT_CRNL.

Record Reader := mkReader {
  state : ParserState;
  fields : list string;
  field : string
}.

Definition parse_reset : Reader := mkReader START_RECORD [] EmptyString.

Definition parse_save_field (r : Reader) (st : ParserState) : Reader :=
  mkReader st (fields r ++ [field r]) EmptyString.

Definition parse_add_char (r : Reader) (c : ascii) (st : ParserState) : Reader :=
  mkReader st (fields r) (field r +:+ String c EmptyString).

Definition set_state (r : Reader) (st : ParserState) : Reader :=
  mkReader st (fields r) (field r).

Definition is_newline (c : ascii) : bool := ascii_eqb c LF || ascii_eqb c CR.

Definition csv_error : exn :=
  Exn CsvError "new-line character seen in unquoted field".

Definition start_field (r : Reader) (c : option ascii) : Reader :=
  match c with
  | None => parse_save_field r START_RECORD
  | Some c =>
      if is_newline c then parse_save_field r EAT_CRNL
      else if ascii_eqb c dquote then set_state r IN_QUOTED_FIELD
      else if ascii_eqb c comma then parse_save_field r START_FIELD
      else parse_add_char r c IN_FIELD
  end.

(** [parse_process_char]; [None] is the end-of-line marker that the
    reader feeds after the last character of each line. *)
Definition parse_process_char (r : Reader) (c : option ascii) : result Reader :=
  match state r with
  | START_RECORD =>
      match c with
      | None => Ok r
      | Some c' =>
          if is_newline c' then Ok (set_state r EAT_CRNL)
          else Ok (start_field r c)
      end
  | START_FIELD => Ok (start_field r c)
  | IN_FIELD =>
      match c with
      | None => Ok (parse_save_field r START_RECORD)
      | Some c =>
          if is_newline c then Ok (parse_save_field r EAT_CRNL)
          else if ascii_eqb c comma then Ok (parse_save_field r START_FIELD)
          else Ok (parse_add_char r c IN_FIELD)
      end
  | IN_QUOTED_FIELD =>
      match c with
      | None => Ok r
      | Some c =>
          if ascii_eqb c dquote then Ok (set_state r QUOTE_IN_QUOTED_FIELD)
          else Ok (parse_add_char r c IN_QUOTED_FIELD)
      end
  | QUOTE_IN_QUOTED_FIELD =>
      match c with
      | None => Ok (parse_save_field r START_RECORD)
      | Some c =>
          if ascii_eqb c dquote then Ok (parse_add_char r c IN_QUOTED_FIELD)
          else if ascii_eqb c comma then Ok (parse_save_field r START_FIELD)
          else if is_newline c then Ok (parse_save_field r EAT_CRNL)
          else Ok (parse_add_char r c IN_FIELD)
      end
  | EAT_CRNL =>
      match c with
      | None => Ok (set_state r START_RECORD)
      | Some c => if is_newline c then Ok r else Raise csv_error
      end
  end.

Fixpoint parse_line (r : Reader) (line : string) : result Reader :=
  match line with
  | EmptyString => parse_process_char r None
  | String c line' =>
      do r' <- parse_process_char r (Some c); parse_line r' line'
  end%py.

Definition state_is_start_record (r : Reader) : bool :=
  match state r with START_RECORD => true | _ => false end.

Definition state_is_in_quoted_field (r : Reader) : bool :=
  match state r with IN_QUOTED_FIELD => true | _ => false end.

(** All the records [next(reader)] returns until the lines run out.
    [r] is the parser in the middle of a record; a record is complete when
    the parser is back in [START_RECORD] at the end of a line. *)
Fixpoint reader_rows (r : Reader) (lines : list string) : result (list (list string)) :=
  match lines with
  | [] =>
      if negb (is_empty (field r)) || state_is_in_quoted_field r
      then Ok [fields r ++ [field r]]
      else Ok []
  | line :: lines' =>
      do r' <- parse_line r line;
      if state_is_start_record r'
      then do rows <- reader_rows parse_reset lines'; Ok (fields r' :: rows)
      else reader_rows r' lines'
  end%py.

Definition csv_reader (lines : list string) : result (list (list string)) :=
  reader_rows parse_reset lines.

(** ** [csv.DictReader]

    The dictionary of a record: [dict(zip(fieldnames, row))], then [None]
    for the field names the record is too short for.  The fields a record
    has beyond the field names go under the key [None], which neither
    script reads: they are left out. *)

Fixpoint zip_insert (names : list string) (row : list string)
    (d : gmap string value) : gmap string value :=
  match names, row with
  | k :: names', v :: row' => zip_insert names' row' (<[k := VStr v]> d)
  | _, _ => d
  end.

Definition fill_restval (names : list string) (d : gmap string value)
    : gmap string value :=
  foldl (fun d k => <[k := VNone]> d) d names.

Definition dict_of_row (names row : list string) : gmap string value :=
  fill_restval (drop (length row) names) (zip_insert names row ∅).

Definition is_nil {A} (l : list A) : bool :=
  match l with [] => true | _ => false end.

(** The rows of a [DictReader]: with [fieldnames = None] the first record
    is the header; empty records are skipped. *)
Definition DictReader (lines : list string) (fieldnames : option (list string))
    : result (list (gmap string value)) :=
  (do rows <- csv_reader lines;
   match fieldnames with
   | Some names =>
       Ok (map (dict_of_row names) (filter (fun row => negb (is_nil row)) rows))
   | None =>
       match rows with
       | [] => Ok []
       | names :: rows' =>
           Ok (map (dict_of_row names) (filter (fun row => negb (is_nil row)) rows'))
       end
   end)%py.

(** ** [difflib.SequenceMatcher(None, a, b).ratio()]

    No junk predicate; [autojunk] is on: when [b] has 200 characters or
    more, a character that fills more than one percent of it (plus one) is
    popular, and a block cannot start on it, only grow over it. *)

Definition popular (b : list ascii) (c : ascii) : bool :=
  let n := length b in
  (200 <=? n) && (n / 100 + 1 <? count_occ Ascii.ascii_dec b c).

(** Length of the run of equal, not popular characters at the heads. *)
Fixpoint run_length (pop : ascii -> bool) (a b : list ascii) : nat :=
  match a, b with
  | x :: a', y :: b' =>
      if ascii_eqb x y && negb (pop y) then S (run_length pop a' b') else 0
  | _, _ => 0
  end.

(** Length of the run of equal characters at the heads. *)
Fixpoint common_prefix (a b : list ascii) : nat :=
  match a, b with
  | x :: a', y :: b' => if ascii_eqb x y then S (common_prefix a' b') else 0
  | _, _ => 0
  end.

Definition better (best : nat * nat * nat) (i j k : nat) : nat * nat * nat :=
  let '(_, _, bestsize) := best in
  if bestsize <? k then (i, j, k) else best.

(** The scan of [find_longest_match] over the starts [j] in [b], then over
    the starts [i] in [a]: the first longest block wins. *)
Fixpoint scan_b (pop : ascii -> bool) (a b : list ascii) (i j : nat)
    (best : nat * nat * nat) : nat * nat * nat :=
  match b with
  | [] => best
  | _ :: b' => scan_b pop a b' i (S j) (better best i j (run_length pop a b))
  end.

Fixpoint scan_a (pop : ascii -> bool) (a b : list ascii) (i : nat)
    (best : nat * nat * nat) : nat * nat * nat :=
  match a with
  | [] => best
  | _ :: a' => scan_a pop a' b (S i) (scan_b pop a b i 0 best)
  end.

(** [find_longest_match] on the slices [a] and [b]: the best block of the
    scan, grown on both sides over equal characters. *)
Definition find_longest_match (pop : ascii -> bool) (a b : list ascii)
    : nat * nat * nat :=
  let '(besti, bestj, bestsize) := scan_a pop a b 0 (0, 0, 0) in
  let back := common_prefix (rev (take besti a)) (rev (take bestj b)) in
  let fwd := common_prefix (drop (besti + bestsize) a) (drop (bestj + bestsize) b) in
  (besti - back, bestj - back, back + bestsize + fwd).

(** The sum of the sizes of the matching blocks: the longest block, then
    the same to its left and to its right. *)
Fixpoint matching_size (fuel : nat) (pop : ascii -> bool) (a b : list ascii) : nat :=
  match fuel with
  | O => 0
  | S fuel' =>
      let '(i, j, k) := find_longest_match pop a b in
      if k =? 0 then 0
      else
        k + (if (0 <? i) && (0 <? j)
             then matching_size fuel' pop (take i a) (take j b) else 0)
          + (if (i + k <? length a) && (j + k <? length b)
             then matching_size fuel' pop (drop (i + k) a) (drop (j + k) b) else 0)
  end.

(** The ratio is the float [2.0 * matches / length], here the rational it
    rounds. *)
Definition SequenceMatcher_ratio (a b : string) : Q :=
  let la := list_ascii_of_string a in
  let lb := list_ascii_of_string b in
  let total := length la + length lb in
  if total =? 0 then 1%Q
  else Qmake (2 * Z.of_nat (matching_size (S (length la)) (popular lb) la lb))
             (Pos.of_nat total).

(** A float: a rational, an infinity or a NaN. *)
Inductive pyfloat := Finite (q : Q) | PosInf | NegInf | NaN.

(** [x >= t] for a finite [x]. *)
Definition float_ge (x : Q) (t : pyfloat) : bool :=
  match t with
  | Finite q => Qle_bool q x
  | PosInf => false
  | NegInf => true
  | NaN => false
  end.

(** ** Files and the two output streams *)

Inductive file :=
| Readable (content : string)
| Unreadable (e : exn).

Record World := mkWorld {
  files : gmap string file;
  stdout : list string;
  stderr : list string
}.

(** A computation that prints, reads or writes files, and may raise. *)
Definition IO (A : Type) : Type := World -> World * result A.

Definition io_ret {A} (a : A) : IO A := fun w => (w, Ok a).

Definition io_bind {A B} (m : IO A) (k : A -> IO B) : IO B :=
  fun w =>
    match m w with
    | (w', Ok a) => k a w'
    | (w', Raise e) => (w', Raise e)
    end.

Definition io_lift {A} (r : result A) : IO A := fun w => (w, r).

Notation "'io' x <- m ; k" := (io_bind m (fun x => k))
  (at level 10, x name, m at level 100, k at level 200) : py_scope.
Notation "m ;; k" := (io_bind m (fun _ => k))
  (at level 100, k at level 200, right associativity) : py_scope.

(** [print(msg)] and [print(msg, file=sys.stderr)]: one entry per call. *)
Definition print (msg : string) : IO unit :=
  fun w => (mkWorld (files w) (stdout w ++ [msg]) (stderr w), Ok tt).

Definition eprint (msg : string) : IO unit :=
  fun w => (mkWorld (files w) (stdout w) (stderr w ++ [msg]), Ok tt).

(** [os.path.exists(path)] *)
Definition path_exists (path : string) : IO bool :=
  fun w => (w, Ok (bool_decide (is_Some (files w !! path)))).

(** [open(path, 'r')] followed by reading the whole file. *)
Definition read_file (path : string) : IO string :=
  fun w =>
    match files w !! path with
    | None => (w, Raise (Exn FileNotFoundError path))
    | Some (Unreadable e) => (w, Raise e)
    | Some (Readable content) => (w, Ok content)
    end.

(** [open(path, 'w')], the writes, and the close.  A failure to write is
    not modelled. *)
Definition write_file (path content : string) : IO unit :=
  fun w => (mkWorld (<[path := Readable content]> (files w)) (stdout w) (stderr w), Ok tt).

End Py.

Import Py.
Open Scope py_scope.

(** The six columns of the published file. *)
Definition fieldnames : list string :=
  ["Month"; "Event"; "Date"; "Time (PST)"; "Location"; "Link"].

(** [d.get(k, default)] *)
Definition get (d : gmap string value) (k : string) (default : value) : value :=
  match d !! k with
  | Some v => v
  | None => default
  end.

(* ===================================================================== *)
(** * scripts/parse_tech_week_html.py                                     *)
(* ===================================================================== *)

Module ParseTechWeek.

#[local] Set Warnings "-register-all".

(** ** The document tree of BeautifulSoup

    An element has a tag name, the list of its classes (what
    [elem.get('class', [])] returns), its other attributes and its
    children; a text node is a [NavigableString]. *)

Inductive node :=
| Text (s : string)
| Elem (tag : string) (classes : list string)
       (attrs : list (string * string)) (kids : list node).

(** The descendants of a node in document order. *)
Fixpoint descendants (n : node) : list node :=
  match n with
  | Text _ => []
  | Elem _ _ _ kids =>
      (fix go (ks : list node) : list node :=
         match ks with
         | [] => []
         | k :: ks' => k :: descendants k ++ go ks'
         end) kids
  end.

Definition node_classes (n : node) : list string :=
  match n with
  | Text _ => []
  | Elem _ cs _ _ => cs
  end.

(** [elem.get(k)] for an attribute other than [class]. *)
Definition node_attr (n : node) (k : string) : option string :=
  match n with
  | Text _ => None
  | Elem _ _ attrs _ => snd <$> List.find (fun kv => str_eqb (fst kv) k) attrs
  end.

Definition is_tag (t : string) (n : node) : bool :=
  match n with
  | Text _ => false
  | Elem t' _ _ _ => str_eqb t t'
  end.

(** The match of [class_=c]: one of the classes is [c], or the whole
    attribute is. *)
Definition has_class (c : string) (n : node) : bool :=
  match n with
  | Text _ => false
  | Elem _ cs _ _ => str_in c cs || (negb (is_nil cs) && str_eqb c (join " " cs))
  end.

(** The match of [attrs={k: v}]. *)
Definition has_attr (k v : string) (n : node) : bool :=
  match node_attr n k with
  | Some v' => str_eqb v v'
  | None => false
  end.

Definition find_all (p : node -> bool) (n : node) : list node :=
  List.filter p (descendants n).

Definition find (p : node -> bool) (n : node) : option node :=
  head (find_all p n).

(** [elem.get_text(strip=True)]: the text nodes below, each stripped, the
    empty ones dropped, joined. *)
Definition get_text (n : node) : string :=
  join "" (List.filter (fun s => negb (is_empty s))
             (omap (fun d => match d with
                             | Text s => Some (strip s)
                             | Elem _ _ _ _ => None
                             end) (descendants n))).

(** ** The record of an event *)

Record EventRecord := mkEvent {
  name : string;
  hosts : string;
  date : string;
  time : string;
  location : string;
  url : string;
  sponsored : bool;
  month : string;
  day : string
}.

(** [event[key] = v], for each key. *)
Definition set_name (event : EventRecord) (v : string) : EventRecord :=
  mkEvent v (hosts event) (date event) (time event) (location event)
          (url event) (sponsored event) (month event) (day event).
Definition set_hosts (event : EventRecord) (v : string) : EventRecord :=
  mkEvent (name event) v (date event) (time event) (location event)
          (url event) (sponsored event) (month event) (day event).
Definition set_date (event : EventRecord) (v : string) : EventRecord :=
  mkEvent (name event) (hosts event) v (time event) (location event)
          (url event) (sponsored event) (month event) (day event).
Definition set_time (event : EventRecord) (v : string) : EventRecord :=
  mkEvent (name event) (hosts event) (date event) v (location event)
          (url event) (sponsored event) (month event) (day event).
Definition set_location (event : EventRecord) (v : string) : EventRecord :=
  mkEvent (name event) (hosts event) (date event) (time event) v
          (url event) (sponsored event) (month event) (day event).
Definition set_url (event : EventRecord) (v : string) : EventRecord :=
  mkEvent (name event) (hosts event) (date event) (time event) (location event)
          v (sponsored event) (month event) (day event).
Definition set_sponsored (event : EventRecord) (v : bool) : EventRecord :=
  mkEvent (name event) (hosts event) (date event) (time event) (location event)
          (url event) v (month event) (day event).
Definition set_month (event : EventRecord) (v : string) : EventRecord :=
  mkEvent (name event) (hosts event) (date event) (time event) (location event)
          (url event) (sponsored event) v (day event).
Definition set_day (event : EventRecord) (v : string) : EventRecord :=
  mkEvent (name event) (hosts event) (date event) (time event) (location event)
          (url event) (sponsored event) (month event) v.

Definition months : list string :=
  ["Jan"; "Feb"; "Mar"; "Apr"; "May"; "Jun";
   "Jul"; "Aug"; "Sep"; "Oct"; "Nov"; "Dec"].

Definition month_map : list (string * string) :=
  [("Jan", "January"); ("Feb", "February"); ("Mar", "March");
   ("Apr", "April"); ("May", "May"); ("Jun", "June");
   ("Jul", "July"); ("Aug", "August"); ("Sep", "September");
   ("Oct", "October"); ("Nov", "November"); ("Dec", "December")].

(** [table.get(k, default)] for a literal table. *)
Definition table_get {A} (table : list (string * A)) (k : string) (default : A) : A :=
  match List.find (fun kv => str_eqb (fst kv) k) table with
  | Some kv => snd kv
  | None => default
  end.

(** ** The date wrapper *)

(** The text fragments kept from the date wrapper: not hidden, not empty,
    neither the bullet nor the word Sponsored. *)
Definition date_texts_of (date_wrapper : node) : list string :=
  omap (fun elem =>
          let text := get_text elem in
          if str_in "w-condition-invisible" (node_classes elem) then None
          else if negb (is_empty text) && negb (str_in text ["·"; "Sponsored"])
               then Some text
               else None)
       (find_all (fun n => is_tag "div" n && has_class "text-size-12" n) date_wrapper).

(** The three variables of the scan. *)
Record Scan := mkScan {
  scan_month : option string;
  scan_day_num : option Z;
  scan_time : option string
}.

(** The body of the loop over [enumerate(date_texts)]; [rest] is what
    follows [text] in the list. *)
Definition scan_step (st : Scan) (text : string) (rest : list string) : Scan :=
  let st1 :=
    if str_in text months then
      mkScan (Some text)
             (match rest with
              | next :: _ =>
                  match int next with
                  | Some n => Some n
                  | None => scan_day_num st
                  end
              | [] => scan_day_num st
              end)
             (scan_time st)
    else st in
  if contains "am" (lower text) || contains "pm" (lower text)
  then mkScan (scan_month st1) (scan_day_num st1) (Some text)
  else st1.

Fixpoint scan (st : Scan) (date_texts : list string) : Scan :=
  match date_texts with
  | [] => st
  | text :: rest => scan (scan_step st text rest) rest
  end.

(** The block under [if len(date_texts) >= 3]. *)
Definition set_date_fields (event : EventRecord) (date_texts : list string)
    : EventRecord :=
  if 3 <=? length date_texts then
    let st := scan (mkScan None None None) date_texts in
    match scan_month st with
    | Some (String _ _ as month) =>
        let event := set_month event month in
        (* Convert short month to full month name *)
        let full_month := table_get month_map month month in
        let event :=
          match scan_day_num st with
          | Some day_num =>
              if (day_num =? 0)%Z then event
              else set_date (set_day event (str day_num))
                            (full_month +:+ " " +:+ str day_num)
          | None => event
          end in
        match scan_time st with
        | Some (String _ _ as time) =>
            (* Clean up time format *)
            set_time event (replace " " "" time)
        | _ => event
        end
    | _ => event
    end
  else event.

(** The record before anything is extracted. *)
Definition new_event : EventRecord :=
  mkEvent "" "" "" "" "San Francisco, CA" "" false "" "".

(** Check if sponsored: a visible sponsored group. *)
Definition extract_sponsored (item : node) (event : EventRecord) : EventRecord :=
  match find (fun n => is_tag "div" n
                       && has_class "calendar-invite-group sponsored" n) item with
  | Some sponsored_group =>
      if negb (str_in "w-condition-invisible" (node_classes sponsored_group))
      then set_sponsored event true
      else event
  | None => event
  end.

(** Extract date and time from date-wrapper. *)
Definition extract_date (item : node) (event : EventRecord) : EventRecord :=
  match find (fun n => is_tag "div" n && has_class "date-wrapper" n) item with
  | Some date_wrapper => set_date_fields event (date_texts_of date_wrapper)
  | None => event
  end.

(** Extract URL. *)
Definition extract_url (item : node) (event : EventRecord) : EventRecord :=
  match find (fun n => is_tag "a" n && has_class "event-link" n) item with
  | Some link_elem =>
      match node_attr link_elem "href" with
      | Some (String _ _ as href) => set_url event href
      | _ => event
      end
  | None => event
  end.

(** Extract neighborhood if available. *)
Definition extract_neighborhood (item : node) (event : EventRecord) : EventRecord :=
  match find (has_attr "fs-list-field" "neighborhood") item with
  | Some neighborhood_elem =>
      let neighborhood := get_text neighborhood_elem in
      if negb (is_empty neighborhood)
      then set_location event (neighborhood +:+ ", San Francisco, CA")
      else event
  | None => event
  end.

Section Extractor.

(** [html.unescape] and the parser of BeautifulSoup are library code; the
    extractor is read for any such pair. *)
Variable html_unescape : string -> string.
Variable BeautifulSoup : string -> node.

(** Extract event name. *)
Definition extract_name (item : node) (event : EventRecord) : EventRecord :=
  match find (has_attr "fs-list-field" "name") item with
  | Some name_elem => set_name event (html_unescape (get_text name_elem))
  | None => event
  end.

(** Extract hosts/organizers. *)
Definition extract_hosts (item : node) (event : EventRecord) : EventRecord :=
  match find (has_attr "fs-list-field" "hosts") item with
  | Some hosts_elem => set_hosts event (html_unescape (get_text hosts_elem))
  | None => event
  end.

(** ** [parse_event_item]: the steps in the order of the source *)
Definition parse_event_item (item : node) : EventRecord :=
  let event := new_event in
  let event := extract_name item event in
  let event := extract_hosts item event in
  let event := extract_sponsored item event in
  let event := extract_date item event in
  let event := extract_url item event in
  let event := extract_neighborhood item event in
  event.

(** ** [parse_tech_week_html] *)
Definition parse_tech_week_html (html_file : string) : IO (list EventRecord) :=
  fun w =>
    match read_file html_file w with
    | (w1, Raise (Exn FileNotFoundError _)) =>
        (io _ <- eprint ("Error: " +:+ html_file +:+ " not found"); io_ret []) w1
    | (w1, Raise e) =>
        (io _ <- eprint ("Error reading " +:+ html_file +:+ ": " +:+ message e);
         io_ret []) w1
    | (w1, Ok html_content) =>
        let soup := BeautifulSoup html_content in
        let event_items :=
          find_all (fun n => is_tag "div" n && has_class "calendar-events-item" n) soup in
        (io _ <- print ("Found " +:+ str (Z.of_nat (length event_items))
                        +:+ " event items in HTML");
         io_ret (List.filter (fun event => negb (is_empty (name event)))
                   (map parse_event_item event_items))) w1
    end.

End Extractor.

(** ** [format_for_csv] *)

Definition MARKER : string := "[Tech Week]".

(** The title with the attribution. *)
Definition attributed_title (title : string) : string :=
  if negb (contains MARKER title) then title +:+ " [Tech Week]" else title.

(** [current_month] is [None] until a month was seen. *)
Fixpoint format_loop (current_month : option string) (events : list EventRecord)
    : list (gmap string value) :=
  match events with
  | [] => []
  | event :: rest =>
      if is_empty (name event) then format_loop current_month rest
      else
        let title := attributed_title (name event) in
        let month :=
          if negb (is_empty (month event))
          then table_get month_map (month event) (month event)
          else month event in
        let formatted_event : gmap string value :=
          <["Link" := VStr (url event)]>
          (<["Location" := VStr (location event)]>
          (<["Time (PST)" := VStr (time event)]>
          (<["Date" := VStr (date event)]>
          (<["Event" := VStr title]>
          (<["Month" := VStr (if bool_decide (Some month = current_month)
                              then "" else month)]> ∅))))) in
        formatted_event ::
          format_loop (if negb (is_empty month) then Some month else current_month) rest
  end.

Definition format_for_csv (events : list EventRecord) : list (gmap string value) :=
  format_loop None events.

End ParseTechWeek.

(* ===================================================================== *)
(** * scripts/merge_events.py                                             *)
(* ===================================================================== *)

Module MergeEvents.

(** A row of a CSV file, as [csv.DictReader] returns it. *)
Abbreviation Row := (gmap string value).

(** ** [similarity] *)
Definition similarity (a b : string) : Q :=
  SequenceMatcher_ratio (lower a) (lower b).

(** ** [read_csv] *)

(** The loop over the rows of the reader.  [current_month] is ['']
    until a row carries a month. *)
Fixpoint read_rows (current_month : string) (rows : list Row) : list Row :=
  match rows with
  | [] => []
  | row :: rest =>
      (* Handle month tracking *)
      let '(current_month, row) :=
        if truthy (row !! "Month") then
          (match row !! "Month" with
           | Some (VStr m) => m
           | _ => current_month
           end, row)
        else if negb (is_empty current_month)
             then (current_month, <["Month" := VStr current_month]> row)
             else (current_month, row) in
      (* Skip empty rows or metadata rows *)
      match row !! "Event" with
      | Some (VStr (String _ _ as event)) =>
          if startswith "Submit an event" event then read_rows current_month rest
          else if str_in (strip event) [""; "Cerebral Valley"]
               then read_rows current_month rest
               else row :: read_rows current_month rest
      | _ => read_rows current_month rest
      end
  end.

(** The file name decides whether five lines and a header come first. *)
Definition is_published (filename : string) : bool :=
  contains "public/events" filename || contains "events_backup" filename.

Definition read_csv (filename : string) : IO (list Row) :=
  io found <- path_exists filename;
  if negb found then
    io _ <- eprint ("Warning: " +:+ filename +:+ " not found"); io_ret []
  else
    io content <- read_file filename;
    let f := readlines content in
    io reader <- io_lift (if is_published filename
                          then DictReader (drop 5 f) None
                          else DictReader f (Some fieldnames));
    io_ret (read_rows "" reader).

(** ** [is_duplicate] *)

(** [event.get('Event', '').replace('[Tech Week]', '').strip()]; the
    [replace] raises on [None]. *)
Definition clean_name (event : Row) : result string :=
  match get event "Event" (VStr "") with
  | VStr name => Ok (strip (replace "[Tech Week]" "" name))
  | VNone => Raise (Exn AttributeError "'NoneType' object has no attribute 'replace'")
  end.

Definition is_duplicate (event1 event2 : Row) (threshold : pyfloat) : result bool :=
  do name1_clean <- clean_name event1;
  do name2_clean <- clean_name event2;
  (* Check exact match first *)
  if str_eqb (lower name1_clean) (lower name2_clean) then Ok true
  (* Check similarity *)
  else Ok (float_ge (similarity name1_clean name2_clean) threshold).

(** The default of the [threshold] parameter. *)
Definition default_threshold : pyfloat := Finite (8 # 10)%Q.

(** ** [merge_events] *)

(** The inner loop: is [tw_event] a duplicate of one of [cv_events]? *)
Fixpoint find_duplicate (tw_event : Row) (cv_events : list Row) : result bool :=
  match cv_events with
  | [] => Ok false
  | cv_event :: rest =>
      do dup <- is_duplicate tw_event cv_event default_threshold;
      if dup then Ok true else find_duplicate tw_event rest
  end.

(** The local variables of the loop over the Tech Week events. *)
Record Merge := mkMerge {
  merged : list Row;
  added_count : nat;
  skipped_count : nat
}.

Fixpoint merge_loop (cv_events tw_events : list Row) (st : Merge) : IO Merge :=
  match tw_events with
  | [] => io_ret st
  | tw_event :: rest =>
      io tw_name <- io_lift (clean_name tw_event);
      io is_dupe <- io_lift (find_duplicate tw_event cv_events);
      if is_dupe then
        io _ <- print ("Skipping duplicate: " +:+ tw_name);
        merge_loop cv_events rest
          (mkMerge (merged st) (added_count st) (S (skipped_count st)))
      else
        io _ <- print ("Adding new event: " +:+ tw_name);
        merge_loop cv_events rest
          (mkMerge (merged st ++ [tw_event]) (S (added_count st)) (skipped_count st))
  end.

(** The part of [merge_events] after the two files were read.  The set
    [existing_events] is built and never read. *)
Definition merge_lists (cv_events tw_events : list Row) : IO Merge :=
  io _ <- print ("Loaded " +:+ str (Z.of_nat (length cv_events))
                 +:+ " Cerebral Valley events");
  io _ <- print ("Loaded " +:+ str (Z.of_nat (length tw_events))
                 +:+ " Tech Week events");
  io existing_events <-
    io_lift (do names <- mapM clean_name cv_events;
             Ok (list_to_set (map lower names) : gset string));
  io st <- merge_loop cv_events tw_events (mkMerge cv_events 0 0);
  io _ <- print (String LF "Added " +:+ str (Z.of_nat (added_count st))
                 +:+ " new Tech Week events");
  io _ <- print ("Skipped " +:+ str (Z.of_nat (skipped_count st))
                 +:+ " duplicate events");
  io_ret st.

Definition merge_events (cerebral_valley_file tech_week_file : string)
    : IO (list Row) :=
  io cv_events <- read_csv cerebral_valley_file;
  io tw_events <- read_csv tech_week_file;
  io st <- merge_lists cv_events tw_events;
  io_ret (merged st).

(** ** [sort_events] *)

Definition months_order : list (string * Z) :=
  [("January", 1); ("February", 2); ("March", 3); ("April", 4);
   ("May", 5); ("June", 6); ("July", 7); ("August", 8);
   ("September", 9); ("October", 10); ("November", 11); ("December", 12)]%Z.

Definition get_sort_key (event : Row) : result (Z * Z) :=
  let month := get event "Month" (VStr "January") in
  let date_str := get event "Date" (VStr "1") in
  (* Extract day number from date string *)
  do day <-
    match date_str with
    | VNone => Raise (Exn TypeError "expected string or bytes-like object")
    | VStr s =>
        match re_search_digits s with
        | Some digits =>
            match int digits with
            | Some n => Ok n
            | None => Raise (Exn ValueError "invalid literal for int()")
            end
        | None => Ok 1%Z
        end
    end;
  let month_num :=
    match month with
    | VStr m => ParseTechWeek.table_get months_order m 1%Z
    | VNone => 1%Z
    end in
  Ok (month_num, day).

(** The order of the tuples [(month_num, day)]. *)
Definition key_le (k1 k2 : Z * Z) : bool :=
  (fst k1 <? fst k2)%Z || ((fst k1 =? fst k2)%Z && (snd k1 <=? snd k2)%Z).

(** [sorted] is stable: an element goes before the first element that
    does not sort before it. *)
Fixpoint insert_by_key {A} (kx : (Z * Z) * A) (l : list ((Z * Z) * A))
    : list ((Z * Z) * A) :=
  match l with
  | [] => [kx]
  | ky :: l' =>
      if key_le (fst kx) (fst ky) then kx :: l else ky :: insert_by_key kx l'
  end.

Definition sorted_by_key {A} (l : list ((Z * Z) * A)) : list A :=
  map snd (foldr insert_by_key [] l).

Definition sort_events (events : list Row) : result (list Row) :=
  do keys <- mapM get_sort_key events;
  Ok (sorted_by_key (zip keys events)).

(** ** [write_output_csv] *)

Definition nl : string := String LF EmptyString.

(** The lines written before the rows. *)
Definition banner : list string :=
  ["u,,,,," +:+ nl;
   ",Submit an event! ,Cerebral Valley,,," +:+ nl;
   ",,Join our Slack Community,,," +:+ nl;
   ",📧 Subscribe to the Events Newsletter,New York,London,Seattle," +:+ nl;
   ",📧 DM Cerebral Valley on Twitter,Click to see 2025 Hackathons!,,Boston," +:+ nl;
   ",🐛 Submit issue: github.com/mikezucc/calendar-valley,,,," +:+ nl].

Definition header : string := "Month,Event,Date,Time (PST),Location,Link" +:+ nl.

(** The rows as the writer receives them.  [current_month] is [None]
    before the first month. *)
Fixpoint output_rows (current_month : option value) (sorted_events : list Row)
    : list (list value) :=
  match sorted_events with
  | [] => []
  | event :: rest =>
      let month := get event "Month" (VStr "") in
      (* Only write month if it's different from previous *)
      let '(current_month, display_month) :=
        if truthy (Some month) && negb (bool_decide (Some month = current_month))
        then (Some month, month)
        else (current_month, VStr "") in
      [display_month;
       get event "Event" (VStr "");
       get event "Date" (VStr "");
       get event "Time (PST)" (VStr "");
       get event "Location" (VStr "");
       get event "Link" (VStr "")]
      :: output_rows current_month rest
  end.

(** The text of the output file. *)
Definition output_text (sorted_events : list Row) : string :=
  join "" banner +:+ header
  +:+ join "" (map writerow (output_rows None sorted_events)).

Definition write_output_csv (events : list Row) (output_file : string) : IO unit :=
  (* Sort events by date *)
  io sorted_events <- io_lift (sort_events events);
  io _ <- write_file output_file (output_text sorted_events);
  print (String LF "Wrote " +:+ str (Z.of_nat (length sorted_events))
         +:+ " total events to " +:+ output_file).

(** ** [main] *)

Definition cerebral_valley_file : string := "public/events.csv".
Definition tech_week_file : string := "scripts/tech_week_events.csv".
Definition output_file : string := "public/events.csv".

(** What [main] writes when the published file is missing. *)
Definition empty_events_file : string :=
  join "" (take 5 banner) +:+ header.

Definition main : IO unit :=
  io found <- path_exists cerebral_valley_file;
  io _ <- (if negb found then
             io _ <- eprint ("Error: " +:+ cerebral_valley_file +:+ " not found");
             io _ <- print "Creating empty events file...";
             write_file cerebral_valley_file empty_events_file
           else io_ret tt);
  (* Merge events *)
  io _ <- print "Merging events...";
  io merged_events <- merge_events cerebral_valley_file tech_week_file;
  (* Write output *)
  io _ <- write_output_csv merged_events output_file;
  print (String LF "Merge complete!").

End MergeEvents.

(* ===================================================================== *)
(** * scripts/parse_tech_week_html.py: saving and the entry point         *)
(* ===================================================================== *)

Module TechWeekMain.
Import ParseTechWeek.

(** ** [csv.DictWriter(f, fieldnames=fieldnames).writerow(event)] *)

(** [_dict_to_list]: a key outside the field names raises; a field the
    dictionary lacks is written as ['']. *)
Definition dict_to_list (names : list string) (rowdict : gmap string value)
    : result (list value) :=
  if forallb (fun kv => str_in (fst kv) names) (map_to_list rowdict)
  then Ok (map (fun key => get rowdict key (VStr "")) names)
  else Raise (Exn ValueError "dict contains fields not in fieldnames").

(** ** [save_to_csv] *)

(** The loop over the events: the text written, and the exception that
    stopped it, if any. *)
Fixpoint write_rows (events : list (gmap string value)) : string * option exn :=
  match events with
  | [] => (EmptyString, None)
  | event :: rest =>
      match dict_to_list fieldnames event with
      | Raise e => (EmptyString, Some e)
      | Ok row =>
          let '(text, stopped) := write_rows rest in
          (writerow row +:+ text, stopped)
      end
  end.

Definition save_to_csv (events : list (gmap string value)) (filename : string)
    : IO unit :=
  if is_nil events then
    io _ <- eprint "No events to save"; io_ret tt
  else
    let '(text, stopped) := write_rows events in
    io _ <- write_file filename text;
    match stopped with
    | Some e => io_lift (Raise e)
    | None =>
        print ("Saved " +:+ str (Z.of_nat (length events)) +:+ " events to " +:+ filename)
    end.

(** ** [parse_date_for_sort], the key of the sort in [main] *)

Definition months_order : list (string * Z) :=
  [("January", 1); ("February", 2); ("March", 3); ("April", 4);
   ("May", 5); ("June", 6); ("July", 7); ("August", 8);
   ("September", 9); ("October", 10); ("November", 11); ("December", 12)]%Z.

(** The table [month_map] of [parse_date_for_sort]: short names to
    numbers. *)
Definition short_months_order : list (string * Z) :=
  [("Jan", 1); ("Feb", 2); ("Mar", 3); ("Apr", 4);
   ("May", 5); ("Jun", 6); ("Jul", 7); ("Aug", 8);
   ("Sep", 9); ("Oct", 10); ("Nov", 11); ("Dec", 12)]%Z.

Definition parse_date_for_sort (event : EventRecord) : Z * Z :=
  let month_str := month event in
  let day_str := day event in
  let month_num :=
    table_get months_order month_str (table_get short_months_order month_str 1%Z) in
  let day_num :=
    if negb (is_empty day_str) then
      match int day_str with
      | Some n => n
      | None => 1%Z
      end
    else 1%Z in
  (month_num, day_num).

(** [events.sort(key=parse_date_for_sort)] *)
Definition sort_for_csv (events : list EventRecord) : list EventRecord :=
  MergeEvents.sorted_by_key (map (fun event => (parse_date_for_sort event, event)) events).

(** ** [main] *)

(** How [main] ends: it returns, a subscript finds no key, or another
    exception leaves it. *)
Inductive outcome :=
| Done
| KeyError (key : string)
| Raised (e : exn).

(** The world after [print(msg)]. *)
Definition printed (w : World) (msg : string) : World :=
  mkWorld (files w) (stdout w ++ [msg]) (stderr w).

(** A value inside an f-string. *)
Definition fstr (v : value) : string :=
  match v with
  | VNone => "None"
  | VStr s => s
  end.

(** The loop that prints the sample. *)
Fixpoint print_sample (events : list (gmap string value)) (w : World)
    : World * outcome :=
  match events with
  | [] => (w, Done)
  | event :: rest =>
      match event !! "Event" with
      | None => (w, KeyError "Event")
      | Some title =>
          let w := printed w ("  - " +:+ fstr title) in
          match event !! "Date" with
          | None => (w, KeyError "Date")
          | Some date =>
              match event !! "Time (PST)" with
              | None => (w, KeyError "Time (PST)")
              | Some time =>
                  let w := printed w ("    Date: " +:+ fstr date
                                      +:+ ", Time: " +:+ fstr time) in
                  match event !! "Location" with
                  | None => (w, KeyError "Location")
                  | Some location =>
                      print_sample rest
                        (printed w ("    Location: " +:+ fstr location))
                  end
              end
          end
      end
  end.

Section Main.

Variable html_unescape : string -> string.
Variable BeautifulSoup : string -> node.

Definition html_file : string := "../fullloadssrscrape.html".
Definition csv_file : string := "tech_week_events.csv".

Definition main (w : World) : World * outcome :=
  match (io _ <- print "Parsing Tech Week SF events from HTML...";
         parse_tech_week_html html_unescape BeautifulSoup html_file) w with
  | (w, Raise e) => (w, Raised e)
  | (w, Ok events) =>
      if is_nil events then
        (* Create empty file so merger doesn't fail *)
        match (io _ <- eprint "No events found in HTML file";
               write_file csv_file "") w with
        | (w, Raise e) => (w, Raised e)
        | (w, Ok _) => (w, Done)
        end
      else
        match (io _ <- print ("Parsed " +:+ str (Z.of_nat (length events))
                              +:+ " events");
               (* Sort events by date *)
               let events := sort_for_csv events in
               (* Format events for CSV *)
               let formatted_events := format_for_csv events in
               (* Save to CSV *)
               io _ <- save_to_csv formatted_events csv_file;
               io _ <- print (String LF "Sample of parsed events:");
               io_ret formatted_events) w with
        | (w, Raise e) => (w, Raised e)
        | (w, Ok formatted_events) => print_sample (take 5 formatted_events) w
        end
  end.

End Main.

End TechWeekMain.

(* ===================================================================== *)
(** * The reader, as the specification words it                           *)
(* ===================================================================== *)

Module ReaderSpec.
Import MergeEvents.






End ReaderSpec.

(* ===================================================================== *)
(** * The vocabulary of the statements                                    *)
(* ===================================================================== *)

Section Vocabulary.
Import ParseTechWeek MergeEvents ReaderSpec.

(** ** Titles *)

(** A row has a title when its Event is not [None]: a missing Event reads
    as ['']. *)
Definition has_title (row : Row) : Prop := row !! "Event" <> Some VNone.

(** The title of a row with the attribution marker removed and the
    whitespace around it trimmed. *)
Definition cleaned_title (row : Row) : string :=
  match get row "Event" (VStr "") with
  | VStr name => strip (replace "[Tech Week]" "" name)
  | VNone => ""
  end.

(** ** Formatted titles *)

(** The titles of the rows the formatter returns. *)
Definition formatted_titles (events : list EventRecord) : list (option value) :=
  map (fun row : gmap string value => row !! "Event") (format_for_csv events).

(** The records with the titles the formatter gave them. *)
Definition retitled (events : list EventRecord) : list EventRecord :=
  map (fun event => set_name event (attributed_title (name event))) events.

(** ** Paths that cannot be read *)

(** The world after one more line on the error stream. *)
Definition warned (w : World) (msg : string) : World :=
  mkWorld (files w) (stdout w) (stderr w ++ [msg]).

(** A path that cannot be opened or read: nothing is there, or what is
    there fails to open or to decode. *)
Definition unreadable (w : World) (path : string) : Prop :=
  files w !! path = None \/ exists e, files w !! path = Some (Unreadable e).

(** ** Rows of the reader *)





(** ** Candidates of the merge *)

(** The candidate [tw_event] is classified as a duplicate: the inner loop
    finds an existing row it duplicates. *)
Definition duplicate_of_existing (cv_events : list Row) (tw_event : Row) : bool :=
  match find_duplicate tw_event cv_events with
  | Ok dup => dup
  | Raise _ => false
  end.

(** The candidates the merge accepts. *)
Definition accepted (cv_events tw_events : list Row) : list Row :=
  List.filter (fun tw_event => negb (duplicate_of_existing cv_events tw_event)) tw_events.

(** ** Date wrappers *)


(** The full name of a month abbreviation. *)
Definition full_month (month : string) : string := table_get month_map month month.


(** A fragment of the date wrapper, and a container with the given
    fragments and nothing else. *)
Definition fragment (text : string) : node :=
  Elem "div" ["text-size-12"] [] [Text text].

Definition wrapper (texts : list string) : node :=
  Elem "div" ["date-wrapper"] [] (map fragment texts).







(** [html.unescape] on a text without character references. *)
Definition no_entities (s : string) : string := s.

(** ** The scenario of the sorter and the writer *)

(** The three rows of the scenario, and a row with neither a month of the
    table nor a digit in its date. *)
Definition row_feb_14 : Row :=
  dict_of_row fieldnames
    ["February"; "Valentine Hack Night"; "14"; "6:00pm"; "San Francisco, CA";
     "https://example.org/valentine"].

Definition row_jan_3 : Row :=
  dict_of_row fieldnames
    ["January"; "New Year Demo Day"; "3"; "10:00am"; "San Francisco, CA";
     "https://example.org/demo"].

Definition row_feb_2 : Row :=
  dict_of_row fieldnames
    ["February"; "AI Meetup [Tech Week]"; "2"; "5:30pm"; "SoMa, San Francisco, CA";
     "https://example.org/meetup"].

Definition row_undated : Row :=
  dict_of_row fieldnames
    ["Smarch"; "Founders Brunch"; "soon"; ""; "San Francisco, CA"; ""].

(** A world without files. *)
Definition empty_world : World := mkWorld ∅ [] [].

(** The three rows as the writer lays them out. *)
Definition scenario_rows_text : string :=
  "January,New Year Demo Day,3,10:00am," +:+ String dquote "San Francisco, CA"
    +:+ String dquote ",https://example.org/demo" +:+ lineterminator
  +:+ "February,AI Meetup [Tech Week],2,5:30pm," +:+ String dquote "SoMa, San Francisco, CA"
    +:+ String dquote ",https://example.org/meetup" +:+ lineterminator
  +:+ ",Valentine Hack Night,14,6:00pm," +:+ String dquote "San Francisco, CA"
    +:+ String dquote ",https://example.org/valentine" +:+ lineterminator.

(** The world after the scenario was written. *)
Definition scenario_world : World :=
  mkWorld {[ "public/events.csv" :=
             Readable (join "" banner +:+ header +:+ scenario_rows_text) ]}
          [String LF "Wrote 3 total events to public/events.csv"] [].

(** The same rows under the five lines the reader skips, as [main] lays
    out a new file. *)
Definition five_line_world : World :=
  mkWorld {[ "public/events.csv" :=
             Readable (empty_events_file +:+ scenario_rows_text) ]} [] [].

(** The six fields of a row. *)
Definition fields_of (row : Row) : list (option value) :=
  map (fun k => row !! k) fieldnames.

(** What a read returned, field by field; [None] when it raised. *)
Definition fields_read (r : World * result (list Row)) : option (list (list (option value))) :=
  match snd r with
  | Ok rows => Some (map fields_of rows)
  | Raise _ => None
  end.

(** ** Further rows, records and containers *)

(** An existing row, a candidate that carries the marker, and two
    candidates that differ by the marker alone. *)
Definition row_ai_meetup : Row :=
  dict_of_row fieldnames
    ["March"; "AI Meetup"; "March 5"; "6:00pm"; "San Francisco, CA"; ""].

Definition row_ai_meetup_tw : Row :=
  dict_of_row fieldnames
    [""; "AI Meetup [Tech Week]"; "March 6"; "6:00pm"; "San Francisco, CA"; ""].

Definition row_founders_dinner : Row :=
  dict_of_row fieldnames
    ["March"; "Founders Dinner"; "March 9"; "7:00pm"; "San Francisco, CA"; ""].


(** Two records, the second with the marker in its name. *)
Definition event_plain : EventRecord :=
  mkEvent "AI Meetup" "" "March 5" "6:00pm" "San Francisco, CA" "" false "Mar" "5".

Definition event_marked : EventRecord :=
  mkEvent "Demo Night [Tech Week]" "" "March 6" "7:00pm" "San Francisco, CA" "" false "Mar" "6".

(** An intermediate file: a row with a month, a row that inherits it, a
    footer row. *)
Definition intermediate_file : string :=
  "March,AI Meetup,March 5,6:00pm,SF," +:+ nl
  +:+ ",Founders Dinner,March 9,7:00pm,SF," +:+ nl
  +:+ ",Submit an event!,,,," +:+ nl.

Definition intermediate_world : World :=
  mkWorld {["scripts/tech_week_events.csv" := Readable intermediate_file]} [] [].

Definition intermediate_rows : list Row :=
  [dict_of_row fieldnames ["March"; "AI Meetup"; "March 5"; "6:00pm"; "SF"; ""];
   dict_of_row fieldnames [""; "Founders Dinner"; "March 9"; "7:00pm"; "SF"; ""];
   dict_of_row fieldnames [""; "Submit an event!"; ""; ""; ""; ""]].

(** A parser that is never reached. *)
Definition no_soup (html : string) : node := Text html.



(** ** Lines of a text file *)

(** No carriage return in the text. *)
Fixpoint no_cr (s : string) : bool :=
  match s with
  | EmptyString => true
  | String c s' => negb (ascii_eqb c CR) && no_cr s'
  end.

(** Neither a line feed nor a carriage return in the text. *)
Fixpoint no_newline (s : string) : bool :=
  match s with
  | EmptyString => true
  | String c s' => negb (is_newline c) && no_newline s'
  end.

(** A line as a text file yields it: no newline but a last line feed. *)
Fixpoint line_ok (s : string) : bool :=
  match s with
  | EmptyString => true
  | String c s' =>
      if is_newline c then ascii_eqb c LF && is_empty s' else line_ok s'
  end.

(** A line that ends with its line feed. *)
Fixpoint complete_line (s : string) : bool :=
  match s with
  | EmptyString => false
  | String c s' =>
      if is_newline c then ascii_eqb c LF && is_empty s' else complete_line s'
  end.

(** The rows of the output file, as text. *)
Definition rows_text (sorted_events : list (gmap string value)) : string :=
  join "" (map writerow (output_rows None sorted_events)).

(** The field names the reader finds in a file the writer wrote: the
    fields of the sixth line. *)
Definition sixth_line_names : list string :=
  [""; "🐛 Submit issue: github.com/mikezucc/calendar-valley"; ""; ""; ""; ""].

End Vocabulary.

(* ===================================================================== *)
(** * The vocabulary of the further properties                            *)
(* ===================================================================== *)

Section FurtherVocabulary.
Import ParseTechWeek MergeEvents ReaderSpec TechWeekMain.

(** ** Rows *)

(** A row has a date when its Date is not [None]: a missing Date reads
    as ['1']. *)
Definition has_date (row : Row) : Prop := row !! "Date" <> Some VNone.

(** A row has a month when its Month is a non-empty string. *)
Definition has_month (row : Row) : Prop := truthy (row !! "Month") = true.

(** The sort key of a row; (1, 1) stands in where the key raises. *)
Definition key_of (row : Row) : Z * Z :=
  match get_sort_key row with
  | Ok key => key
  | Raise _ => (1, 1)%Z
  end.

(** Two sort keys are the same. *)
Definition key_eqb (k1 k2 : Z * Z) : bool :=
  (fst k1 =? fst k2)%Z && (snd k1 =? snd k2)%Z.


(** ** Sorting *)

(** [sorted(l, key=key)], and [l.sort(key=key)]. *)
Definition sorted_with {A} (key : A -> Z * Z) (l : list A) : list A :=
  sorted_by_key (map (fun x => (key x, x)) l).

(** The order of the keys, as a relation on what carries them. *)
Definition key_order {A} (key : A -> Z * Z) (x y : A) : Prop :=
  key_le (key x) (key y) = true.

(** Every pair carries the key of its second component. *)
Definition keyed_by {A} (key : A -> Z * Z) (l : list ((Z * Z) * A)) : Prop :=
  Forall (fun p => fst p = key (snd p)) l.

(** Digits only. *)
Fixpoint all_digits (s : string) : bool :=
  match s with
  | EmptyString => true
  | String c s' => isdigit c && all_digits s'
  end.

(** ** The loop of the reader, one row at a time *)

(** The running month after a row. *)
Definition month_after (current_month : string) (row : Row) : string :=
  match row !! "Month" with
  | Some (VStr (String _ _ as m)) => m
  | _ => current_month
  end.

(** The row with the running month, when it has none of its own. *)
Definition with_month (current_month : string) (row : Row) : Row :=
  if truthy (row !! "Month") then row
  else if negb (is_empty current_month) then <["Month" := VStr current_month]> row
       else row.

(** The Event of the row passes the three tests of the reader. *)
Definition is_event (row : Row) : bool :=
  match row !! "Event" with
  | Some (VStr (String _ _ as event)) =>
      negb (startswith "Submit an event" event)
      && negb (str_in (strip event) [""; "Cerebral Valley"])
  | _ => false
  end.

(** ** Containers *)

(** The classes of the elements below [item] hold no space, as the
    classes BeautifulSoup splits an attribute into. *)
Definition classes_split (item : node) : Prop :=
  Forall (fun n => Forall (fun c => contains " " c = false) (node_classes n))
         (descendants item).

(** The sponsored group of a container. *)
Definition sponsored_group_of (item : node) : option node :=
  find (fun n => is_tag "div" n && has_class "calendar-invite-group sponsored" n) item.

(** A container whose sponsored group is also marked invisible, in one
    class attribute. *)
Definition item_hidden_sponsor : node :=
  Elem "div" ["calendar-events-item"] []
    [Elem "div" ["calendar-invite-group"; "sponsored"; "w-condition-invisible"] [] [];
     wrapper ["Mon"; "Oct"; "6"; "5:00 PM"]].

(** ** The rows of the formatter *)

(** The row of a record under a month and a title. *)
Definition csv_row (month_shown title : string) (event : EventRecord) : Row :=
  <["Link" := VStr (url event)]>
  (<["Location" := VStr (location event)]>
  (<["Time (PST)" := VStr (time event)]>
  (<["Date" := VStr (date event)]>
  (<["Event" := VStr title]>
  (<["Month" := VStr month_shown]> ∅))))).

(** The month of a record as the formatter names it. *)
Definition month_name (event : EventRecord) : string :=
  if negb (is_empty (month event))
  then table_get month_map (month event) (month event)
  else month event.

(** The rows of the records, each under the month that runs at it: its
    own month, or the month of the last record before it that had one.
    Records without a name, and records whose title starts with the
    footer prefix, give no row. *)
Fixpoint rows_with_months (running : string) (events : list EventRecord) : list Row :=
  match events with
  | [] => []
  | event :: rest =>
      if is_empty (name event) then rows_with_months running rest
      else
        let running :=
          if is_empty (month_name event) then running else month_name event in
        (if startswith "Submit an event" (attributed_title (name event)) then []
         else [csv_row running (attributed_title (name event)) event])
        ++ rows_with_months running rest
  end.

(** The month that runs in the formatter, as the reader holds it. *)
Definition running_month (current_month : option string) : string :=
  match current_month with
  | Some m => m
  | None => ""
  end.

(** The last character is no whitespace. *)
Fixpoint ends_nonspace (s : string) : bool :=
  match s with
  | EmptyString => false
  | String c EmptyString => negb (isspace c)
  | String _ s' => ends_nonspace s'
  end.

(** The first character is no whitespace. *)
Definition starts_nonspace (s : string) : bool :=
  match s with
  | EmptyString => false
  | String c _ => negb (isspace c)
  end.

(** ** The parser, character by character *)

(** The characters of a piece of a line, without the end-of-line
    marker. *)
Fixpoint feed (r : Reader) (s : string) : result Reader :=
  match s with
  | EmptyString => Ok r
  | String c s' => do r' <- parse_process_char r (Some c); feed r' s'
  end.

(** The parser is at the start of a field, the fields [acc] behind it. *)
Definition at_field_start (acc : list string) (r : Reader) : Prop :=
  (state r = START_FIELD \/ state r = START_RECORD)
  /\ fields r = acc /\ field r = "".

(** The line of a record, once its line terminator was translated. *)
Definition record_line (record : list string) : string :=
  join "," (map csv_field record) +:+ nl.

(** The fields of a record hold no newline. *)
Definition one_line (record : list string) : Prop :=
  Forall (fun f => no_newline f = true) record.

(** A record of the six columns, without a newline in a field. *)
Definition six_fields (record : list string) : Prop :=
  length record = 6 /\ one_line record.

(** A row that holds the six columns and nothing else, each a string
    without a newline. *)
Definition six_columns (row : Row) : Prop :=
  exists record, six_fields record /\ row = dict_of_row fieldnames record.

(** The text of a record in the file. *)
Definition record_text (record : list string) : string :=
  join "," (map csv_field record) +:+ lineterminator.

(** No field of the record holds a newline. *)
Definition printable (event : EventRecord) : Prop :=
  no_newline (name event) = true /\ no_newline (date event) = true
  /\ no_newline (time event) = true /\ no_newline (location event) = true
  /\ no_newline (url event) = true /\ no_newline (month event) = true.

(** The record has a name. *)
Definition named (event : EventRecord) : Prop := is_empty (name event) = false.

(** ** Decimal digits *)



(** The rows a reader with the six field names makes of the records the
    writer was given. *)
Definition rows_of_records (records : list (list value)) : list Row :=
  map (fun record => dict_of_row fieldnames (map csv_str record)) records.

(** The month that runs in the writer is the month that runs in the
    reader. *)
Definition same_month (current_month : option value) (running : string) : Prop :=
  (current_month = None /\ running = "")
  \/ (current_month = Some (VStr running) /\ running <> "").

(** A row as the formatter builds it. *)
Definition formatted (row : Row) : Prop :=
  exists shown title event, row = csv_row shown title event.

(** A record with a comma in a field and quotes in another. *)
Definition record_to_quote : list string :=
  ["October"; "Founders, Funders and Friends [Tech Week]"; "October 6";
   "6:00pm"; "The " +:+ String dquote ("Garage" +:+ String dquote ", SoMa");
   "https://partiful.com/e/abc"].

(** A record of the extractor with a comma in its name. *)
Definition event_with_comma : EventRecord :=
  mkEvent "Founders, Funders and Friends" "" "October 6" "6:00pm"
          "SoMa, San Francisco, CA" "https://partiful.com/e/abc" false "Oct" "6".

End FurtherVocabulary.

(* ===================================================================== *)
(** * Facts about the primitives                                          *)
(* ===================================================================== *)

Section StringFacts.

Lemma str_eqb_eq (a b : string) : str_eqb a b = true <-> a = b.
Proof. unfold str_eqb. apply String.eqb_eq. Qed.

Lemma str_eqb_refl (a : string) : str_eqb a a = true.
Proof. apply str_eqb_eq. reflexivity. Qed.

Lemma str_in_In (x : string) (l : list string) : str_in x l = true <-> In x l.
Proof.
  unfold str_in. rewrite existsb_exists. split.
  - intros [y [Hy Heq]]. apply str_eqb_eq in Heq. subst. exact Hy.
  - intros H. exists x. split; [exact H | apply str_eqb_refl].
Qed.

Lemma is_empty_true (s : string) : is_empty s = true <-> s = "".
Proof. destruct s; simpl; split; congruence. Qed.

(** A needle found in [b] is found in [a ++ b]. *)
Lemma contains_app_r (n a b : string) :
  contains n b = true -> contains n (a +:+ b) = true.
Proof.
  intros H. induction a as [|c a IH]; simpl; [exact H|].
  rewrite IH. apply orb_true_r.
Qed.

End StringFacts.

(* ===================================================================== *)
(** * The duplicate predicate                                             *)
(* ===================================================================== *)

Section Duplicates.
Import MergeEvents.

Lemma clean_name_ok (row : Row) :
  has_title row -> clean_name row = Ok (cleaned_title row).
Proof.
  unfold has_title, clean_name, cleaned_title, get.
  destruct (row !! "Event") as [[|s]|]; intros H; try reflexivity.
  congruence.
Qed.


End Duplicates.

(* ===================================================================== *)
(** * The formatter                                                       *)
(* ===================================================================== *)

Section Formatter.
Import ParseTechWeek.

Lemma attributed_title_marked (title : string) :
  contains MARKER (attributed_title title) = true.
Proof.
  unfold attributed_title.
  destruct (contains MARKER title) eqn:E; simpl; [exact E|].
  apply contains_app_r. reflexivity.
Qed.

Lemma attributed_title_fixed (title : string) :
  contains MARKER title = true -> attributed_title title = title.
Proof. intros H. unfold attributed_title. rewrite H. reflexivity. Qed.

Lemma attributed_title_idempotent (title : string) :
  attributed_title (attributed_title title) = attributed_title title.
Proof. apply attributed_title_fixed, attributed_title_marked. Qed.

Lemma attributed_title_not_empty (title : string) :
  is_empty (attributed_title title) = false.
Proof.
  unfold attributed_title. destruct (contains MARKER title) eqn:E; simpl.
  - destruct title; [discriminate E | reflexivity].
  - destruct title; reflexivity.
Qed.

Lemma format_loop_titles (events : list EventRecord) (current_month : option string) :
  map (fun row : gmap string value => row !! "Event") (format_loop current_month events)
  = map (fun event => Some (VStr (attributed_title (name event))))
        (List.filter (fun event => negb (is_empty (name event))) events).
Proof.
  revert current_month. induction events as [|event rest IH]; intros cm; simpl.
  - reflexivity.
  - destruct (is_empty (name event)); simpl.
    + apply IH.
    + f_equal. apply IH.
Qed.

(** C5. The formatter gives a record the title [attributed_title name];
    a title that already carries the marker is left as it is, and
    formatting the records under the titles they were given returns the
    same titles. *)
Theorem format_title_idempotent (events : list EventRecord) :
  Forall (fun event => name event <> "") events ->
  formatted_titles events
    = map (fun event => Some (VStr (attributed_title (name event)))) events
  /\ Forall (fun event => contains MARKER (name event) = true ->
                          attributed_title (name event) = name event) events
  /\ formatted_titles (retitled events) = formatted_titles events.
Proof.
  intros Hnames.
  assert (Hkeep : forall evs, Forall (fun event => name event <> "") evs ->
            List.filter (fun event => negb (is_empty (name event))) evs = evs).
  { intros evs H. induction H as [|event evs Hne _ IH]; simpl; [reflexivity|].
    destruct (is_empty (name event)) eqn:E.
    - apply is_empty_true in E. contradiction.
    - simpl. f_equal. exact IH. }
  assert (Hre : Forall (fun event => name event <> "") (retitled events)).
  { unfold retitled. apply Forall_map. apply Forall_forall. intros event _. simpl.
    intros E. apply is_empty_true in E.
    rewrite attributed_title_not_empty in E. discriminate E. }
  unfold formatted_titles, format_for_csv. rewrite !format_loop_titles.
  rewrite (Hkeep _ Hnames), (Hkeep _ Hre). split; [reflexivity|]. split.
  - apply Forall_forall. intros event _. apply attributed_title_fixed.
  - unfold retitled. rewrite map_map. apply map_ext. intros event. simpl.
    rewrite attributed_title_idempotent. reflexivity.
Qed.

End Formatter.

(* ===================================================================== *)
(** * Missing and unreadable inputs                                       *)
(* ===================================================================== *)

Section MissingInput.
Import ParseTechWeek MergeEvents.

(** C9. The reader answers a path that does not exist with a warning on
    the error stream and the empty list; the extractor answers a source it
    cannot open or read with a line on the error stream and no record.
    Neither raises, and neither touches the files or the output stream. *)
Theorem missing_input_is_not_fatal
    (html_unescape : string -> string) (BeautifulSoup : string -> node)
    (w : World) (path : string) :
  (files w !! path = None ->
   read_csv path w = (warned w ("Warning: " +:+ path +:+ " not found"), Ok []))
  /\ (unreadable w path ->
      exists msg, parse_tech_week_html html_unescape BeautifulSoup path w
                  = (warned w msg, Ok [])).
Proof.
  split.
  - intros Hnone. unfold read_csv, io_bind, path_exists. rewrite Hnone.
    rewrite bool_decide_eq_false_2 by (intros [x Hx]; discriminate Hx).
    reflexivity.
  - intros [Hnone | [e He]]; unfold parse_tech_week_html, read_file.
    + rewrite Hnone. eexists. reflexivity.
    + rewrite He. destruct e as [[] msg]; eexists; reflexivity.
Qed.

End MissingInput.

(* ===================================================================== *)
(** * The reader                                                          *)
(* ===================================================================== *)

Section Reader.
Import MergeEvents ReaderSpec.





End Reader.

(* ===================================================================== *)
(** * The merge                                                           *)
(* ===================================================================== *)

Section Merge.
Import MergeEvents.

Lemma is_duplicate_total (event1 event2 : Row) (threshold : pyfloat) :
  has_title event1 -> has_title event2 ->
  exists dup, is_duplicate event1 event2 threshold = Ok dup.
Proof.
  intros H1 H2. unfold is_duplicate.
  rewrite (clean_name_ok _ H1), (clean_name_ok _ H2). cbn [bind].
  destruct (str_eqb _ _); eexists; reflexivity.
Qed.

Lemma find_duplicate_total (tw_event : Row) (cv_events : list Row) :
  has_title tw_event -> Forall has_title cv_events ->
  exists dup, find_duplicate tw_event cv_events = Ok dup.
Proof.
  intros Ht Hcv. induction Hcv as [|cv_event rest Hc _ IH]; cbn [find_duplicate].
  - eexists; reflexivity.
  - destruct (is_duplicate_total tw_event cv_event default_threshold Ht Hc) as [dup Hdup].
    rewrite Hdup. cbn [bind]. destruct dup; [eexists; reflexivity | exact IH].
Qed.

Lemma mapM_clean_name_total (events : list Row) :
  Forall has_title events -> exists names, mapM clean_name events = Ok names.
Proof.
  intros H. induction H as [|event rest He _ [names IH]]; cbn [mapM].
  - eexists; reflexivity.
  - rewrite (clean_name_ok _ He), IH. eexists; reflexivity.
Qed.

(** The loop over the candidates returns, and what it returns depends on
    the existing rows and the candidates only. *)
Lemma merge_loop_spec (cv_events tw_events : list Row) :
  Forall has_title cv_events -> Forall has_title tw_events ->
  forall (st : Merge) (w : World),
  exists w',
    merge_loop cv_events tw_events st w
    = (w', Ok (mkMerge (merged st ++ accepted cv_events tw_events)
                       (added_count st + length (accepted cv_events tw_events))
                       (skipped_count st
                        + length (List.filter (duplicate_of_existing cv_events) tw_events)))).
Proof.
  intros Hcv Htw. induction Htw as [|tw_event rest Ht _ IH]; intros st w.
  - exists w. cbn [merge_loop accepted List.filter length]. unfold io_ret.
    rewrite app_nil_r, !Nat.add_0_r. destruct st; reflexivity.
  - cbn [merge_loop]. unfold io_bind, io_lift at 1 2.
    rewrite (clean_name_ok _ Ht).
    destruct (find_duplicate_total tw_event cv_events Ht Hcv) as [dup Hdup].
    assert (Hd : duplicate_of_existing cv_events tw_event = dup)
      by (unfold duplicate_of_existing; rewrite Hdup; reflexivity).
    unfold accepted in *. cbn [List.filter]. rewrite Hd, Hdup.
    destruct dup; cbn [negb print].
    + match goal with |- context [merge_loop _ _ ?st' ?w'] =>
        destruct (IH st' w') as [w'' Hw'']; exists w''; rewrite Hw'' end.
      cbn [merged added_count skipped_count length]. do 3 f_equal. lia.
    + match goal with |- context [merge_loop _ _ ?st' ?w'] =>
        destruct (IH st' w') as [w'' Hw'']; exists w''; rewrite Hw'' end.
      cbn [merged added_count skipped_count length]. rewrite <- app_assoc.
      cbn [app]. do 2 f_equal. f_equal. lia.
Qed.

Lemma merge_lists_spec (cv_events tw_events : list Row) (w : World) :
  Forall has_title cv_events -> Forall has_title tw_events ->
  exists w',
    merge_lists cv_events tw_events w
    = (w', Ok (mkMerge (cv_events ++ accepted cv_events tw_events)
                       (length (accepted cv_events tw_events))
                       (length (List.filter (duplicate_of_existing cv_events) tw_events)))).
Proof.
  intros Hcv Htw. unfold merge_lists, io_bind, io_lift, print.
  destruct (mapM_clean_name_total cv_events Hcv) as [names Hnames].
  rewrite Hnames. cbn [bind].
  match goal with |- context [merge_loop _ _ ?st' ?w'] =>
    destruct (merge_loop_spec cv_events tw_events Hcv Htw st' w') as [w'' Hw''];
    rewrite Hw'' end.
  eexists. unfold io_ret. reflexivity.
Qed.




(** Every row the reader returns has a title, so the merge of two files
    that were read does not raise. *)
Lemma read_rows_titled (rows : list Row) (current_month : string) :
  Forall has_title (read_rows current_month rows).
Proof.
  revert current_month. induction rows as [|row rows IH]; intros cm; [constructor|].
  cbn [read_rows].
  assert (Hkeep : forall (cm' : string) (row' : Row),
            Forall has_title
              match row' !! "Event" with
              | Some (VStr (String _ _ as event)) =>
                  if startswith "Submit an event" event then read_rows cm' rows
                  else if str_in (strip event) [""; "Cerebral Valley"]
                       then read_rows cm' rows
                       else row' :: read_rows cm' rows
              | _ => read_rows cm' rows
              end).
  { intros cm' row'. destruct (row' !! "Event") as [[|[|c ev]]|] eqn:E; try apply IH.
    destruct (startswith _ _); [apply IH|].
    destruct (str_in _ _); [apply IH|].
    constructor; [|apply IH]. unfold has_title. rewrite E. discriminate. }
  destruct (truthy (row !! "Month")); [apply Hkeep|].
  destruct (negb (is_empty cm)); apply Hkeep.
Qed.

Lemma read_csv_titled (filename : string) (w w' : World) (rows : list Row) :
  read_csv filename w = (w', Ok rows) -> Forall has_title rows.
Proof.
  unfold read_csv, io_bind, path_exists, read_file, io_lift, io_ret, eprint.
  destruct (bool_decide _); cbn [negb].
  - destruct (files w !! filename) as [[content|e]|]; try discriminate.
    destruct (if is_published filename then _ else _) as [reader|e]; [|discriminate].
    intros H. injection H as _ <-. apply read_rows_titled.
  - intros H. injection H as _ <-. constructor.
Qed.

Lemma merge_events_returns
    (cerebral_valley_file tech_week_file : string) (w w1 w2 : World)
    (cv_events tw_events : list Row) :
  read_csv cerebral_valley_file w = (w1, Ok cv_events) ->
  read_csv tech_week_file w1 = (w2, Ok tw_events) ->
  exists w3,
    merge_events cerebral_valley_file tech_week_file w
    = (w3, Ok (cv_events ++ accepted cv_events tw_events)).
Proof.
  intros Hcv Htw. unfold merge_events, io_bind at 1 2 3. rewrite Hcv, Htw.
  destruct (merge_lists_spec cv_events tw_events w2
              (read_csv_titled _ _ _ _ Hcv) (read_csv_titled _ _ _ _ Htw))
    as [w3 Hw3].
  rewrite Hw3. exists w3. reflexivity.
Qed.

End Merge.

(* ===================================================================== *)
(** * The extractor: the date wrapper                                     *)
(* ===================================================================== *)

Section DateWrapper.
Import ParseTechWeek.




Lemma scan_cons (text : string) (rest : list string) (st : Scan) :
  scan st (text :: rest) = scan (scan_step st text rest) rest.
Proof. reflexivity. Qed.















End DateWrapper.

(* ===================================================================== *)
(** * The sorter and the writer                                           *)
(* ===================================================================== *)

Section SortAndWrite.
Import MergeEvents.

Lemma scenario_keys :
  mapM get_sort_key [row_feb_14; row_jan_3; row_feb_2]
  = Ok [(2, 14); (1, 3); (2, 2)]%Z.
Proof. vm_compute. reflexivity. Qed.

(** C6. The rows dated February 14, January 3 and February 2 have the
    keys (2, 14), (1, 3) and (2, 2) and sort to January 3, February 2,
    February 14; a month outside the table and a date without digits give
    the key (1, 1).  The writer shows January, then February, then a
    blank month for the second February row. *)
Theorem sort_and_write_scenario :
  mapM get_sort_key [row_feb_14; row_jan_3; row_feb_2]
    = Ok [(2, 14); (1, 3); (2, 2)]%Z
  /\ get_sort_key row_undated = Ok (1, 1)%Z
  /\ get_sort_key ∅ = Ok (1, 1)%Z
  /\ sort_events [row_feb_14; row_jan_3; row_feb_2]
     = Ok [row_jan_3; row_feb_2; row_feb_14]
  /\ map (fun row => (row !! 0, row !! 2))
         (output_rows None [row_jan_3; row_feb_2; row_feb_14])
     = [(Some (VStr "January"), Some (VStr "3"));
        (Some (VStr "February"), Some (VStr "2"));
        (Some (VStr ""), Some (VStr "14"))]
  /\ write_output_csv [row_feb_14; row_jan_3; row_feb_2] "public/events.csv" empty_world
     = (scenario_world, Ok tt).
Proof.
  split; [exact scenario_keys|].
  split; [vm_compute; reflexivity|].
  split; [vm_compute; reflexivity|].
  split; [unfold sort_events; rewrite scenario_keys; reflexivity|].
  split; vm_compute; reflexivity.
Qed.

(** C1, at the scenario. The file the writer produces has six lines before
    its header; the reader skips five, takes the sixth for the header and
    the header for a row, finds no Event in any row, and returns nothing.
    Under five lines the same rows come back, each with its month. *)
Theorem published_roundtrip_loses_rows :
  write_output_csv [row_feb_14; row_jan_3; row_feb_2] "public/events.csv" empty_world
    = (scenario_world, Ok tt)
  /\ read_csv "public/events.csv" scenario_world = (scenario_world, Ok [])
  /\ fields_read (read_csv "public/events.csv" five_line_world)
     = Some (map fields_of [row_jan_3; row_feb_2; row_feb_14]).
Proof.
  split; [vm_compute; reflexivity|].
  split; vm_compute; reflexivity.
Qed.

End SortAndWrite.

(* ===================================================================== *)
(** * Writing, then reading                                               *)
(* ===================================================================== *)

Section RoundTrip.
Import MergeEvents.

Lemma append_assoc (a b c : string) : (a +:+ b) +:+ c = a +:+ (b +:+ c).
Proof.
  induction a as [|x a IH]; [reflexivity|].
  change (String x ((a +:+ b) +:+ c) = String x (a +:+ (b +:+ c))).
  rewrite IH. reflexivity.
Qed.

Lemma append_empty_r (a : string) : a +:+ "" = a.
Proof.
  induction a as [|x a IH]; [reflexivity|].
  change (String x (a +:+ "") = String x a). rewrite IH. reflexivity.
Qed.

Lemma join_empty_cons (l : string) (ls : list string) :
  join "" (l :: ls) = l +:+ join "" ls.
Proof.
  destruct ls as [|l' ls]; cbn [join]; [rewrite append_empty_r|]; reflexivity.
Qed.

Lemma is_newline_LF : is_newline LF = true.
Proof. reflexivity. Qed.

Lemma not_newline_not_cr (c : ascii) : is_newline c = false -> ascii_eqb c CR = false.
Proof. unfold is_newline. intros H. apply orb_false_iff in H. tauto. Qed.

Lemma not_newline_not_lf (c : ascii) : is_newline c = false -> ascii_eqb c LF = false.
Proof. unfold is_newline. intros H. apply orb_false_iff in H. tauto. Qed.

(** A complete line is a body without newline, then a line feed. *)
Lemma complete_line_body (l : string) :
  complete_line l = true -> exists body, l = body +:+ nl /\ no_newline body = true.
Proof.
  induction l as [|c l IH]; cbn [complete_line]; [discriminate|].
  destruct (is_newline c) eqn:Ec.
  - intros H. apply andb_true_iff in H. destruct H as [Hc Hl].
    apply Ascii.eqb_eq in Hc. apply is_empty_true in Hl. subst.
    exists "". split; reflexivity.
  - intros H. destruct (IH H) as [body [-> Hbody]].
    exists (String c body). split; [reflexivity|].
    cbn [no_newline]. rewrite Ec, Hbody. reflexivity.
Qed.

Lemma universal_newlines_body (body rest : string) :
  no_newline body = true ->
  universal_newlines (body +:+ nl +:+ rest) = body +:+ nl +:+ universal_newlines rest.
Proof.
  induction body as [|c body IH]; intros H.
  - reflexivity.
  - cbn [no_newline] in H. apply andb_true_iff in H. destruct H as [Hc Hb].
    apply negb_true_iff in Hc.
    change (String c body +:+ nl +:+ rest) with (String c (body +:+ nl +:+ rest)).
    cbn [universal_newlines]. rewrite (not_newline_not_cr _ Hc), (IH Hb).
    reflexivity.
Qed.

Lemma lines_from_body (body rest cur : string) :
  no_newline body = true ->
  lines_from cur (body +:+ nl +:+ rest) = (cur +:+ body +:+ nl) :: lines_from "" rest.
Proof.
  revert cur. induction body as [|c body IH]; intros cur H.
  - reflexivity.
  - cbn [no_newline] in H. apply andb_true_iff in H. destruct H as [Hc Hb].
    apply negb_true_iff in Hc.
    change (String c body +:+ nl +:+ rest) with (String c (body +:+ nl +:+ rest)).
    cbn [lines_from]. rewrite (not_newline_not_lf _ Hc), (IH _ Hb).
    rewrite append_assoc. reflexivity.
Qed.

(** Complete lines in front of a text are its first lines. *)
Lemma readlines_lines (ls : list string) (rest : string) :
  forallb complete_line ls = true ->
  readlines (join "" ls +:+ rest) = ls ++ readlines rest.
Proof.
  induction ls as [|l ls IH]; intros H; [reflexivity|].
  cbn [forallb] in H. apply andb_true_iff in H. destruct H as [Hl Hls].
  destruct (complete_line_body l Hl) as [body [-> Hbody]].
  rewrite join_empty_cons, !append_assoc. unfold readlines.
  rewrite (universal_newlines_body _ _ Hbody), (lines_from_body _ _ _ Hbody).
  cbn [app]. f_equal. exact (IH Hls).
Qed.

(** The translation of the newlines leaves no carriage return. *)
Lemma universal_newlines_no_cr (s : string) : no_cr (universal_newlines s) = true.
Proof.
  assert (H : forall n s, String.length s <= n -> no_cr (universal_newlines s) = true).
  { intros n. induction n as [|n IH]; intros [|c t] Hlen; try reflexivity.
    - cbn [String.length] in Hlen. lia.
    - cbn [String.length] in Hlen. cbn [universal_newlines].
      destruct (ascii_eqb c CR) eqn:Ec.
      + destruct t as [|d t]; [reflexivity|].
        cbn [String.length] in Hlen.
        destruct (ascii_eqb d LF); cbn [no_cr]; apply IH; cbn [String.length]; lia.
      + cbn [no_cr]. rewrite Ec. apply IH. lia. }
  apply (H (String.length s)). lia.
Qed.

Lemma no_newline_snoc (cur : string) (c : ascii) :
  no_newline cur = true -> is_newline c = false ->
  no_newline (cur +:+ String c "") = true.
Proof.
  intros Hcur Hc. induction cur as [|x cur IH].
  - change (negb (is_newline c) && true = true). rewrite Hc. reflexivity.
  - cbn [no_newline] in Hcur. apply andb_true_iff in Hcur. destruct Hcur as [Hx Hcur].
    change (no_newline (String x (cur +:+ String c "")) = true).
    cbn [no_newline]. rewrite Hx, (IH Hcur). reflexivity.
Qed.

Lemma line_ok_no_newline (cur : string) : no_newline cur = true -> line_ok cur = true.
Proof.
  induction cur as [|x cur IH]; [reflexivity|]. cbn [no_newline line_ok].
  intros H. apply andb_true_iff in H. destruct H as [Hx Hcur].
  apply negb_true_iff in Hx. rewrite Hx. apply IH, Hcur.
Qed.

Lemma line_ok_complete (cur : string) :
  no_newline cur = true -> line_ok (cur +:+ String LF "") = true.
Proof.
  induction cur as [|x cur IH]; [reflexivity|]. cbn [no_newline].
  intros H. apply andb_true_iff in H. destruct H as [Hx Hcur].
  apply negb_true_iff in Hx.
  change (line_ok (String x (cur +:+ String LF "")) = true).
  cbn [line_ok]. rewrite Hx. apply IH, Hcur.
Qed.

(** The lines of a text without carriage return are well formed. *)
Lemma lines_from_ok (s : string) :
  no_cr s = true -> forall cur, no_newline cur = true ->
  Forall (fun l => line_ok l = true) (lines_from cur s).
Proof.
  induction s as [|c s IH]; intros Hs cur Hcur; cbn [lines_from].
  - destruct (is_empty cur); constructor; [|constructor].
    apply line_ok_no_newline, Hcur.
  - cbn [no_cr] in Hs. apply andb_true_iff in Hs. destruct Hs as [Hc Hs].
    apply negb_true_iff in Hc.
    destruct (ascii_eqb c LF) eqn:El.
    + constructor; [apply line_ok_complete, Hcur | apply IH; [exact Hs | reflexivity]].
    + apply IH; [exact Hs|]. apply no_newline_snoc; [exact Hcur|].
      unfold is_newline. rewrite El, Hc. reflexivity.
Qed.

Lemma readlines_ok (content : string) :
  Forall (fun l => line_ok l = true) (readlines content).
Proof.
  unfold readlines. apply lines_from_ok; [apply universal_newlines_no_cr | reflexivity].
Qed.

(** ** The parser does not raise on well-formed lines *)

Lemma process_plain_char (r : Reader) (c : ascii) :
  is_newline c = false -> state r <> EAT_CRNL ->
  exists r', parse_process_char r (Some c) = Ok r' /\ state r' <> EAT_CRNL.
Proof.
  intros Hc Hr. unfold parse_process_char, start_field.
  destruct (state r) eqn:Es; try contradiction; rewrite ?Hc;
    destruct (ascii_eqb c dquote), (ascii_eqb c comma);
    eexists; (split; [reflexivity | cbn [state parse_save_field parse_add_char set_state]; discriminate]).
Qed.

Lemma process_end_of_line (r : Reader) :
  state r <> EAT_CRNL ->
  exists r', parse_process_char r None = Ok r' /\ state r' <> EAT_CRNL.
Proof.
  intros Hr. unfold parse_process_char, start_field.
  destruct (state r) eqn:Es; try contradiction;
    eexists; (split; [reflexivity|]);
    cbn [state parse_save_field parse_add_char set_state]; rewrite ?Es; discriminate.
Qed.

Lemma process_line_feed (r : Reader) :
  state r <> EAT_CRNL ->
  exists r1 r2, parse_process_char r (Some LF) = Ok r1
                /\ parse_process_char r1 None = Ok r2
                /\ state r2 <> EAT_CRNL.
Proof.
  intros Hr. unfold parse_process_char at 1. unfold start_field.
  rewrite is_newline_LF.
  destruct (state r) eqn:Es; try contradiction;
    change (ascii_eqb LF dquote) with false; change (ascii_eqb LF comma) with false;
    cbn iota; eexists; eexists; (split; [reflexivity|]);
    unfold parse_process_char;
    cbn [state parse_save_field parse_add_char set_state];
    (split; [reflexivity|]);
    cbn [state parse_save_field parse_add_char set_state]; discriminate.
Qed.

Lemma parse_line_ok (line : string) :
  line_ok line = true -> forall r, state r <> EAT_CRNL ->
  exists r', parse_line r line = Ok r' /\ state r' <> EAT_CRNL.
Proof.
  induction line as [|c line IH]; intros Hl r Hr; cbn [parse_line].
  - apply process_end_of_line, Hr.
  - cbn [line_ok] in Hl. destruct (is_newline c) eqn:Ec.
    + apply andb_true_iff in Hl. destruct Hl as [Hc Hline].
      apply Ascii.eqb_eq in Hc. apply is_empty_true in Hline. subst.
      destruct (process_line_feed r Hr) as [r1 [r2 [H1 [H2 H3]]]].
      rewrite H1. cbn [bind parse_line]. exists r2. split; assumption.
    + destruct (process_plain_char r c Ec Hr) as [r1 [H1 Hr1]].
      rewrite H1. cbn [bind]. apply IH; assumption.
Qed.

Lemma reader_rows_ok (lines : list string) :
  Forall (fun l => line_ok l = true) lines ->
  forall r, state r <> EAT_CRNL -> exists rows, reader_rows r lines = Ok rows.
Proof.
  intros H. induction H as [|line lines Hl _ IH]; intros r Hr; cbn [reader_rows].
  - destruct (_ || _); eexists; reflexivity.
  - destruct (parse_line_ok line Hl r Hr) as [r1 [H1 Hr1]].
    rewrite H1. cbn [bind]. destruct (state_is_start_record r1).
    + destruct (IH parse_reset) as [rows Hrows]; [discriminate|].
      rewrite Hrows. eexists; reflexivity.
    + apply IH, Hr1.
Qed.

(** ** A dictionary has no key outside its field names *)

Lemma zip_insert_notin (names row : list string) (d : gmap string value) (k : string) :
  ~ In k names -> zip_insert names row d !! k = d !! k.
Proof.
  revert row d. induction names as [|n names IH]; intros row d Hk; [reflexivity|].
  destruct row as [|v row]; [reflexivity|]. cbn [zip_insert].
  rewrite IH by (intros H; apply Hk; right; exact H).
  apply lookup_insert_ne. intros ->. apply Hk. left. reflexivity.
Qed.

Lemma fill_restval_notin (names : list string) (d : gmap string value) (k : string) :
  ~ In k names -> fill_restval names d !! k = d !! k.
Proof.
  unfold fill_restval. revert d.
  induction names as [|n names IH]; intros d Hk; [reflexivity|].
  cbn [foldl]. rewrite IH by (intros H; apply Hk; right; exact H).
  apply lookup_insert_ne. intros ->. apply Hk. left. reflexivity.
Qed.

Lemma dict_of_row_notin (names row : list string) (k : string) :
  ~ In k names -> dict_of_row names row !! k = None.
Proof.
  intros Hk. unfold dict_of_row.
  rewrite fill_restval_notin, zip_insert_notin by
    (try exact Hk; intros H; apply Hk;
     rewrite <- (take_drop (length row) names); apply in_or_app; right; exact H).
  apply lookup_empty.
Qed.

(** Rows without an Event are all discarded. *)
Lemma read_rows_no_event (rows : list Row) (current_month : string) :
  Forall (fun row : Row => row !! "Event" = None) rows ->
  read_rows current_month rows = [].
Proof.
  intros H. revert current_month.
  induction H as [|row rows Hrow _ IH]; intros cm; [reflexivity|].
  cbn [read_rows].
  destruct (truthy (row !! "Month")); [rewrite Hrow; apply IH|].
  destruct (negb (is_empty cm)).
  - rewrite lookup_insert_ne by discriminate. rewrite Hrow. apply IH.
  - rewrite Hrow. apply IH.
Qed.

(** ** The file the writer wrote, as the reader sees it *)

(** Its lines: the six lines of the banner, the header, the rows. *)
Lemma output_text_lines (sorted_events : list Row) :
  readlines (output_text sorted_events)
  = banner ++ header :: readlines (rows_text sorted_events).
Proof.
  unfold output_text. fold (rows_text sorted_events).
  rewrite (readlines_lines banner) by reflexivity.
  apply (f_equal (app banner)).
  exact (readlines_lines [header] (rows_text sorted_events) eq_refl).
Qed.

(** The sixth line is the header of the reader. *)
Lemma sixth_line_parsed :
  parse_line parse_reset (",🐛 Submit issue: github.com/mikezucc/calendar-valley,,,," +:+ nl)
  = Ok (mkReader START_RECORD sixth_line_names "").
Proof. vm_compute. reflexivity. Qed.

Lemma reader_rows_cons (r : Reader) (line : string) (lines : list string) :
  reader_rows r (line :: lines)
  = (do r' <- parse_line r line;
     if state_is_start_record r'
     then do rows <- reader_rows parse_reset lines; Ok (fields r' :: rows)
     else reader_rows r' lines).
Proof. reflexivity. Qed.

Lemma DictReader_of_output (sorted_events : list Row) :
  exists rows,
    DictReader (drop 5 (readlines (output_text sorted_events))) None
    = Ok (map (dict_of_row sixth_line_names) rows).
Proof.
  rewrite output_text_lines.
  change (drop 5 (banner ++ header :: readlines (rows_text sorted_events)))
    with ((",🐛 Submit issue: github.com/mikezucc/calendar-valley,,,," +:+ nl)
          :: header :: readlines (rows_text sorted_events)).
  unfold DictReader, csv_reader. rewrite reader_rows_cons, sixth_line_parsed.
  cbn [bind state_is_start_record state fields].
  destruct (reader_rows_ok (header :: readlines (rows_text sorted_events)))
    with (r := parse_reset) as [rows Hrows].
  - constructor; [reflexivity | apply readlines_ok].
  - discriminate.
  - rewrite Hrows. cbn [bind]. eexists. reflexivity.
Qed.

(** C1, for every list. Whatever rows the writer wrote to a published
    file, the reader returns none of them. *)
Lemma published_roundtrip_is_empty
    (events : list Row) (path : string) (w w1 : World) :
  is_published path = true ->
  write_output_csv events path w = (w1, Ok tt) ->
  read_csv path w1 = (w1, Ok []).
Proof.
  intros Hpub Hw. unfold write_output_csv, io_bind, io_lift in Hw.
  destruct (sort_events events) as [sorted_events|e]; [|discriminate Hw].
  unfold write_file, print in Hw. cbn [files stdout stderr] in Hw.
  injection Hw as <-.
  unfold read_csv, io_bind, path_exists, read_file, io_lift, io_ret.
  cbn [files]. rewrite lookup_insert_eq.
  rewrite bool_decide_eq_true_2 by (eexists; reflexivity).
  cbn [negb files]. rewrite lookup_insert_eq, Hpub.
  destruct (DictReader_of_output sorted_events) as [rows Hrows].
  rewrite Hrows. rewrite read_rows_no_event; [reflexivity|].
  apply List.Forall_forall. intros row Hin. apply in_map_iff in Hin.
  destruct Hin as [fields [<- _]]. apply dict_of_row_notin.
  intros H. apply str_in_In in H. discriminate H.
Qed.

End RoundTrip.

(* ===================================================================== *)
(** * The theorems at concrete inputs                                     *)
(* ===================================================================== *)

Section Witnesses.
Import ParseTechWeek MergeEvents ReaderSpec.


Lemma format_title_idempotent_witness :
  Forall (fun event => name event <> "") [event_plain; event_marked]
  /\ formatted_titles [event_plain; event_marked]
     = [Some (VStr "AI Meetup [Tech Week]"); Some (VStr "Demo Night [Tech Week]")]
  /\ formatted_titles (retitled [event_plain; event_marked])
     = formatted_titles [event_plain; event_marked].
Proof.
  assert (H : Forall (fun event => name event <> "") [event_plain; event_marked])
    by (repeat constructor; discriminate).
  split; [exact H|].
  destruct (format_title_idempotent [event_plain; event_marked] H) as [Ht [_ Hre]].
  split; [rewrite Ht; reflexivity | exact Hre].
Defined.

Lemma missing_input_is_not_fatal_witness :
  files empty_world !! "scripts/tech_week_events.csv" = None
  /\ unreadable empty_world "scripts/tech_week_events.csv"
  /\ read_csv "scripts/tech_week_events.csv" empty_world
     = (warned empty_world "Warning: scripts/tech_week_events.csv not found", Ok [])
  /\ exists msg,
       parse_tech_week_html no_entities no_soup "scripts/tech_week_events.csv" empty_world
       = (warned empty_world msg, Ok []).
Proof.
  assert (H1 : files empty_world !! "scripts/tech_week_events.csv" = None)
    by reflexivity.
  assert (H2 : unreadable empty_world "scripts/tech_week_events.csv")
    by (left; reflexivity).
  split; [exact H1|]. split; [exact H2|].
  destruct (missing_input_is_not_fatal no_entities no_soup empty_world
              "scripts/tech_week_events.csv") as [Hread Hparse].
  split; [exact (Hread H1) | exact (Hparse H2)].
Defined.






End Witnesses.

(* ===================================================================== *)
(** * Further properties of the merge                                     *)
(* ===================================================================== *)

Section MergeFurther.
Import MergeEvents ReaderSpec.

Lemma is_duplicate_self (event : Row) (threshold : pyfloat) :
  has_title event -> is_duplicate event event threshold = Ok true.
Proof.
  intros H. unfold is_duplicate. rewrite (clean_name_ok _ H). cbn [bind].
  rewrite str_eqb_refl. reflexivity.
Qed.

(** The inner loop answers false exactly when no comparison matches. *)
Lemma find_duplicate_false (tw_event : Row) (cv_events : list Row) :
  has_title tw_event -> Forall has_title cv_events ->
  (find_duplicate tw_event cv_events = Ok false
   <-> forall cv_event, In cv_event cv_events ->
         is_duplicate tw_event cv_event default_threshold = Ok false).
Proof.
  intros Ht Hcv. induction Hcv as [|cv_event rest Hc _ IH]; cbn [find_duplicate].
  - split; [intros _ c []| reflexivity].
  - destruct (is_duplicate_total tw_event cv_event default_threshold Ht Hc) as [dup Hdup].
    rewrite Hdup. cbn [bind]. destruct dup.
    + split; [discriminate|]. intros H.
      specialize (H cv_event (or_introl eq_refl)). congruence.
    + rewrite IH. split.
      * intros H c [<- | Hin]; [exact Hdup | apply H, Hin].
      * intros H c Hin. apply H. right. exact Hin.
Qed.






(** A comparison that matches somewhere in the list stops the inner loop
    with true. *)
Lemma find_duplicate_true (tw_event cv_event : Row) (cv_events : list Row) :
  has_title tw_event -> Forall has_title cv_events ->
  In cv_event cv_events ->
  is_duplicate tw_event cv_event default_threshold = Ok true ->
  find_duplicate tw_event cv_events = Ok true.
Proof.
  intros Ht Hcv Hin Hdup.
  destruct (find_duplicate_total tw_event cv_events Ht Hcv) as [[|] Hfound];
    [exact Hfound|].
  pose proof (proj1 (find_duplicate_false _ _ Ht Hcv) Hfound cv_event Hin) as Hno.
  rewrite Hno in Hdup. discriminate Hdup.
Qed.

Lemma find_duplicate_app (tw_event : Row) (l1 l2 : list Row) :
  find_duplicate tw_event (l1 ++ l2)
  = (do dup <- find_duplicate tw_event l1;
     if dup then Ok true else find_duplicate tw_event l2).
Proof.
  induction l1 as [|c l1 IH]; cbn [app find_duplicate bind].
  - destruct (find_duplicate tw_event l2) as [[|]|]; reflexivity.
  - destruct (is_duplicate tw_event c default_threshold) as [[|]|]; cbn [bind];
      [reflexivity | exact IH | reflexivity].
Qed.

Lemma accepted_titled (cv_events tw_events : list Row) :
  Forall has_title tw_events -> Forall has_title (accepted cv_events tw_events).
Proof.
  intros H. apply List.Forall_forall. intros x Hx. unfold accepted in Hx.
  apply filter_In in Hx. apply (proj1 (List.Forall_forall _ _) H _ (proj1 Hx)).
Qed.

Lemma filter_all_true {A} (p : A -> bool) (l : list A) :
  (forall x, In x l -> p x = true) ->
  List.filter p l = l /\ List.filter (fun x => negb (p x)) l = [].
Proof.
  induction l as [|x l IH]; intros H; [split; reflexivity|].
  cbn [List.filter]. rewrite (H x (or_introl eq_refl)). cbn [negb].
  destruct IH as [IH1 IH2]; [intros y Hy; apply H; right; exact Hy|].
  rewrite IH1, IH2. split; reflexivity.
Qed.

(** After a merge, every candidate duplicates a row of the output. *)
Lemma duplicate_after_merge (cv_events tw_events : list Row) (tw_event : Row) :
  Forall has_title cv_events -> Forall has_title tw_events ->
  In tw_event tw_events ->
  duplicate_of_existing (cv_events ++ accepted cv_events tw_events) tw_event = true.
Proof.
  intros Hcv Htw Hin.
  pose proof (proj1 (List.Forall_forall _ _) Htw _ Hin) as Ht.
  unfold duplicate_of_existing at 1. rewrite find_duplicate_app.
  destruct (find_duplicate_total tw_event cv_events Ht Hcv) as [[|] Hfound];
    rewrite Hfound; cbn [bind]; [reflexivity|].
  rewrite (find_duplicate_true tw_event tw_event); try reflexivity; try assumption.
  - apply accepted_titled, Htw.
  - unfold accepted. apply filter_In. split; [exact Hin|].
    unfold duplicate_of_existing. rewrite Hfound. reflexivity.
  - apply is_duplicate_self, Ht.
Qed.

(** X2. Merging the same candidates into the output of a merge appends
    nothing: every candidate is skipped. *)
Theorem merge_again_appends_nothing (cv_events tw_events : list Row) (w : World) :
  Forall has_title cv_events -> Forall has_title tw_events ->
  exists w1 st1 w2 st2,
    merge_lists cv_events tw_events w = (w1, Ok st1)
    /\ merge_lists (merged st1) tw_events w1 = (w2, Ok st2)
    /\ merged st2 = merged st1
    /\ added_count st2 = 0
    /\ skipped_count st2 = length tw_events.
Proof.
  intros Hcv Htw.
  destruct (merge_lists_spec cv_events tw_events w Hcv Htw) as [w1 Hw1].
  assert (Hall : Forall has_title (cv_events ++ accepted cv_events tw_events))
    by (apply Forall_app; split; [exact Hcv | apply accepted_titled, Htw]).
  destruct (merge_lists_spec _ tw_events w1 Hall Htw) as [w2 Hw2].
  destruct (filter_all_true
              (duplicate_of_existing (cv_events ++ accepted cv_events tw_events))
              tw_events) as [Hdup Hacc].
  { intros t Hin. apply duplicate_after_merge; assumption. }
  eexists _, _, _, _. split; [exact Hw1|]. cbn [merged]. split; [exact Hw2|].
  cbn [merged added_count skipped_count].
  change (accepted (cv_events ++ accepted cv_events tw_events) tw_events = [])
    in Hacc.
  rewrite Hacc, Hdup, app_nil_r. repeat split; reflexivity.
Qed.

Lemma merge_again_appends_nothing_witness :
  Forall has_title [row_ai_meetup]
  /\ Forall has_title [row_ai_meetup_tw; row_founders_dinner]
  /\ exists w1 st1 w2 st2,
       merge_lists [row_ai_meetup] [row_ai_meetup_tw; row_founders_dinner] empty_world
         = (w1, Ok st1)
       /\ merge_lists (merged st1) [row_ai_meetup_tw; row_founders_dinner] w1
          = (w2, Ok st2)
       /\ merged st2 = merged st1
       /\ added_count st2 = 0
       /\ skipped_count st2 = length [row_ai_meetup_tw; row_founders_dinner].
Proof.
  assert (H1 : Forall has_title [row_ai_meetup])
    by (repeat constructor; vm_compute; discriminate).
  assert (H2 : Forall has_title [row_ai_meetup_tw; row_founders_dinner])
    by (repeat constructor; vm_compute; discriminate).
  split; [exact H1|]. split; [exact H2|].
  exact (merge_again_appends_nothing [row_ai_meetup]
           [row_ai_meetup_tw; row_founders_dinner] empty_world H1 H2).
Defined.

(** The merge prints on the output stream and touches nothing else. *)
Lemma merge_loop_world (cv_events tw_events : list Row) :
  forall (st : Merge) (w w' : World) (r : result Merge),
  merge_loop cv_events tw_events st w = (w', r) ->
  files w' = files w /\ stderr w' = stderr w.
Proof.
  induction tw_events as [|tw_event rest IH]; intros st w w' r; cbn [merge_loop].
  - unfold io_ret. intros H. injection H as <- _. split; reflexivity.
  - unfold io_bind, io_lift at 1 2.
    destruct (clean_name tw_event); [|intros H; injection H as <- _; split; reflexivity].
    destruct (find_duplicate tw_event cv_events) as [[|]|];
      [| |intros H; injection H as <- _; split; reflexivity];
      cbn [print]; intros H; apply IH in H; exact H.
Qed.

Lemma merge_lists_world (cv_events tw_events : list Row) (w w' : World)
    (r : result Merge) :
  merge_lists cv_events tw_events w = (w', r) ->
  files w' = files w /\ stderr w' = stderr w.
Proof.
  unfold merge_lists, io_bind, io_lift, print.
  destruct (do names <- mapM clean_name cv_events; _) as [existing|e];
    [|intros H; injection H as <- _; split; reflexivity].
  destruct (merge_loop _ _ _ _) as [w1 [st|e]] eqn:Eloop;
    apply merge_loop_world in Eloop; cbn [files stderr] in Eloop;
    intros H; injection H as <- _; exact Eloop.
Qed.

Lemma read_csv_files (filename : string) (w w' : World) (r : result (list Row)) :
  read_csv filename w = (w', r) -> files w' = files w.
Proof.
  unfold read_csv, io_bind, path_exists, read_file, io_lift, io_ret, eprint.
  destruct (bool_decide _); cbn [negb].
  - destruct (files w !! filename) as [[content|e]|];
      try (intros H; injection H as <- _; reflexivity).
    destruct (if is_published filename then _ else _);
      intros H; injection H as <- _; reflexivity.
  - intros H. injection H as <- _. reflexivity.
Qed.

(** What [read_csv] returns for a file that can be read. *)
Lemma read_csv_readable (filename content : string) (w : World) (reader : list Row) :
  files w !! filename = Some (Readable content) ->
  (if is_published filename
   then DictReader (drop 5 (readlines content)) None
   else DictReader (readlines content) (Some fieldnames)) = Ok reader ->
  read_csv filename w = (w, Ok (read_rows "" reader)).
Proof.
  intros Hfile Hrows.
  unfold read_csv, io_bind, path_exists, read_file, io_lift, io_ret.
  rewrite Hfile. rewrite bool_decide_eq_true_2 by (eexists; reflexivity).
  cbn [negb]. rewrite Hfile, Hrows. reflexivity.
Qed.

Lemma intermediate_file_rows :
  DictReader (readlines intermediate_file) (Some fieldnames) = Ok intermediate_rows.
Proof.
  assert (Hrows : csv_reader (readlines intermediate_file)
                  = Ok [["March"; "AI Meetup"; "March 5"; "6:00pm"; "SF"; ""];
                        [""; "Founders Dinner"; "March 9"; "7:00pm"; "SF"; ""];
                        [""; "Submit an event!"; ""; ""; ""; ""]])
    by (vm_compute; reflexivity).
  unfold DictReader. rewrite Hrows. reflexivity.
Qed.

(** X3. When the Tech Week file is missing, the merge returns the rows of
    the published file as they were read, leaves the files alone, and
    warns once on the error stream. *)
Theorem merge_events_without_tech_week
    (cerebral_valley_file tech_week_file : string) (w w1 : World)
    (cv_events : list Row) :
  read_csv cerebral_valley_file w = (w1, Ok cv_events) ->
  files w !! tech_week_file = None ->
  exists w',
    merge_events cerebral_valley_file tech_week_file w = (w', Ok cv_events)
    /\ files w' = files w
    /\ stderr w' = stderr w1 ++ ["Warning: " +:+ tech_week_file +:+ " not found"].
Proof.
  intros Hcv Hnone. unfold merge_events, io_bind at 1 2 3. rewrite Hcv.
  pose proof (read_csv_files _ _ _ _ Hcv) as Hfiles.
  assert (Htw : read_csv tech_week_file w1
                = (warned w1 ("Warning: " +:+ tech_week_file +:+ " not found"), Ok [])).
  { unfold read_csv, io_bind, path_exists. rewrite Hfiles, Hnone.
    rewrite bool_decide_eq_false_2 by (intros [x Hx]; discriminate Hx).
    reflexivity. }
  rewrite Htw.
  destruct (merge_lists_spec cv_events [] (warned w1 ("Warning: " +:+ tech_week_file +:+ " not found"))
              (read_csv_titled _ _ _ _ Hcv) (List.Forall_nil _)) as [w' Hw'].
  rewrite Hw'. exists w'. cbn [merged accepted List.filter]. rewrite app_nil_r.
  split; [reflexivity|].
  apply merge_lists_world in Hw'. cbn [warned files stderr] in Hw'.
  destruct Hw' as [-> ->]. split; [exact Hfiles | reflexivity].
Qed.

Lemma merge_events_without_tech_week_witness :
  read_csv "scripts/tech_week_events.csv" intermediate_world
    = (intermediate_world, Ok (read_rows "" intermediate_rows))
  /\ files intermediate_world !! "nowhere.csv" = None
  /\ exists w',
       merge_events "scripts/tech_week_events.csv" "nowhere.csv" intermediate_world
         = (w', Ok (read_rows "" intermediate_rows))
       /\ files w' = files intermediate_world
       /\ stderr w' = stderr intermediate_world ++ ["Warning: " +:+ "nowhere.csv" +:+ " not found"].
Proof.
  assert (H1 : read_csv "scripts/tech_week_events.csv" intermediate_world
               = (intermediate_world, Ok (read_rows "" intermediate_rows)))
    by (apply (read_csv_readable _ intermediate_file);
        [reflexivity | exact intermediate_file_rows]).
  assert (H2 : files intermediate_world !! "nowhere.csv" = None) by reflexivity.
  split; [exact H1|]. split; [exact H2|].
  exact (merge_events_without_tech_week "scripts/tech_week_events.csv" "nowhere.csv"
           intermediate_world intermediate_world _ H1 H2).
Defined.

End MergeFurther.

(* ===================================================================== *)
(** * Further properties of the sort                                      *)
(* ===================================================================== *)

Section SortFacts.
Import MergeEvents.

Context {A : Type} (key : A -> Z * Z).

#[local] Abbreviation keyed := (keyed_by key).

Lemma key_le_total (k1 k2 : Z * Z) : key_le k1 k2 = false -> key_le k2 k1 = true.
Proof.
  unfold key_le. rewrite orb_false_iff, andb_false_iff, orb_true_iff, andb_true_iff.
  rewrite !Z.ltb_lt, !Z.ltb_ge, !Z.eqb_eq, !Z.eqb_neq, Z.leb_le, Z.leb_gt. lia.
Qed.

Lemma key_eqb_le (k1 k2 : Z * Z) : key_eqb k1 k2 = true -> key_le k1 k2 = true.
Proof.
  unfold key_eqb, key_le. rewrite orb_true_iff, !andb_true_iff.
  rewrite Z.ltb_lt, !Z.eqb_eq, Z.leb_le. lia.
Qed.

Lemma key_eqb_eq (k1 k2 : Z * Z) : key_eqb k1 k2 = true <-> k1 = k2.
Proof.
  unfold key_eqb. rewrite andb_true_iff, !Z.eqb_eq. destruct k1, k2; cbn [fst snd].
  split; [intros [-> ->]; reflexivity | intros H; injection H; auto].
Qed.

Lemma insert_by_key_keyed (kx : (Z * Z) * A) (l : list ((Z * Z) * A)) :
  fst kx = key (snd kx) -> keyed l -> keyed (insert_by_key kx l).
Proof.
  intros Hx Hl. induction Hl as [|ky l Hy Hl IH]; cbn [insert_by_key].
  - constructor; [exact Hx | constructor].
  - destruct (key_le (fst kx) (fst ky)).
    + constructor; [exact Hx|]. constructor; assumption.
    + constructor; assumption.
Qed.

Lemma insert_by_key_perm (kx : (Z * Z) * A) (l : list ((Z * Z) * A)) :
  Permutation (kx :: l) (insert_by_key kx l).
Proof.
  induction l as [|ky l IH]; cbn [insert_by_key]; [reflexivity|].
  destruct (key_le (fst kx) (fst ky)); [reflexivity|].
  rewrite perm_swap. apply perm_skip, IH.
Qed.

Lemma insert_by_key_hd (R := fun p q : (Z * Z) * A => key_le (fst p) (fst q) = true)
    (a kx : (Z * Z) * A) (l : list ((Z * Z) * A)) :
  R a kx -> HdRel R a l -> HdRel R a (insert_by_key kx l).
Proof.
  intros Hax Hal. destruct l as [|ky l]; cbn [insert_by_key].
  - constructor. exact Hax.
  - destruct (key_le (fst kx) (fst ky)); constructor; [exact Hax|].
    inversion Hal; assumption.
Qed.

Lemma insert_by_key_sorted (R := fun p q : (Z * Z) * A => key_le (fst p) (fst q) = true)
    (kx : (Z * Z) * A) (l : list ((Z * Z) * A)) :
  Sorted R l -> Sorted R (insert_by_key kx l).
Proof.
  intros Hl. induction Hl as [|ky l Hl IH Hhd]; cbn [insert_by_key].
  - repeat constructor.
  - destruct (key_le (fst kx) (fst ky)) eqn:E.
    + constructor; [constructor; assumption | constructor; exact E].
    + constructor; [exact IH|]. apply insert_by_key_hd; [|exact Hhd].
      apply key_le_total, E.
Qed.

(** An element goes in front of the elements of its own key. *)
Lemma insert_by_key_filter (k : Z * Z) (kx : (Z * Z) * A) (l : list ((Z * Z) * A)) :
  List.filter (fun p => key_eqb (fst p) k) (insert_by_key kx l)
  = List.filter (fun p => key_eqb (fst p) k) (kx :: l).
Proof.
  induction l as [|ky l IH]; cbn [insert_by_key]; [reflexivity|].
  destruct (key_le (fst kx) (fst ky)) eqn:E; [reflexivity|].
  cbn [List.filter] in *. rewrite IH.
  destruct (key_eqb (fst kx) k) eqn:Ex, (key_eqb (fst ky) k) eqn:Ey; try reflexivity.
  apply key_eqb_eq in Ex, Ey. subst k.
  rewrite (key_eqb_le (fst kx) (fst ky)) in E by (apply key_eqb_eq; congruence).
  discriminate E.
Qed.

Lemma foldr_insert_spec (l : list A) :
  let pairs := map (fun x => (key x, x)) l in
  let out := foldr insert_by_key [] pairs in
  keyed out /\ Permutation pairs out
  /\ Sorted (fun p q => key_le (fst p) (fst q) = true) out
  /\ forall k, List.filter (fun p => key_eqb (fst p) k) out
               = List.filter (fun p => key_eqb (fst p) k) pairs.
Proof.
  induction l as [|x l IH]; cbn [map foldr].
  - repeat split; constructor.
  - destruct IH as [Hk [Hp [Hs Hf]]]. repeat split.
    + apply insert_by_key_keyed; [reflexivity | exact Hk].
    + rewrite <- insert_by_key_perm. apply perm_skip, Hp.
    + apply insert_by_key_sorted, Hs.
    + intros k. rewrite insert_by_key_filter. cbn [List.filter]. rewrite Hf.
      reflexivity.
Qed.

Lemma filter_map_snd (k : Z * Z) (l : list ((Z * Z) * A)) :
  keyed l ->
  List.filter (fun x => key_eqb (key x) k) (map snd l)
  = map snd (List.filter (fun p => key_eqb (fst p) k) l).
Proof.
  intros H. induction H as [|p l Hp _ IH]; [reflexivity|].
  cbn [map List.filter]. rewrite <- Hp, IH.
  destruct (key_eqb (fst p) k); reflexivity.
Qed.

Lemma sorted_map_snd (l : list ((Z * Z) * A)) :
  keyed l ->
  Sorted (fun p q => key_le (fst p) (fst q) = true) l ->
  Sorted (key_order key) (map snd l).
Proof.
  intros Hk Hs. induction Hs as [|p l Hs IH Hhd]; [constructor|].
  inversion Hk as [|? ? Hp Hl]; subst. cbn [map]. constructor; [apply IH, Hl|].
  destruct Hhd as [|q l Hpq]; cbn [map]; constructor.
  inversion Hl as [|? ? Hq _]; subst. unfold key_order. rewrite <- Hp, <- Hq.
  exact Hpq.
Qed.

(** The sort returns the elements it was given, in the order of their
    keys, the elements of one key in the order they came. *)
Lemma sorted_with_spec (l : list A) :
  Permutation l (sorted_with key l)
  /\ Sorted (key_order key) (sorted_with key l)
  /\ forall k, List.filter (fun x => key_eqb (key x) k) (sorted_with key l)
               = List.filter (fun x => key_eqb (key x) k) l.
Proof.
  destruct (foldr_insert_spec l) as [Hk [Hp [Hs Hf]]].
  unfold sorted_with, sorted_by_key. repeat split.
  - apply (Permutation_map snd) in Hp. rewrite map_map in Hp. cbn [snd] in Hp.
    rewrite map_id in Hp. exact Hp.
  - apply sorted_map_snd; assumption.
  - intros k. rewrite (filter_map_snd k _ Hk), Hf.
    rewrite <- (filter_map_snd k).
    + rewrite map_map. cbn [snd]. rewrite map_id. reflexivity.
    + apply List.Forall_forall. intros p Hin. apply in_map_iff in Hin.
      destruct Hin as [x [<- _]]. reflexivity.
Qed.

End SortFacts.

Section SortEvents.
Import MergeEvents.

Lemma isdigit_not_space (c : ascii) : isdigit c = true -> isspace c = false.
Proof.
  unfold isdigit, isspace. cbv zeta.
  rewrite andb_true_iff, orb_false_iff, !andb_false_iff, !Nat.leb_le, !Nat.leb_gt.
  lia.
Qed.

Lemma rstrip_digits (s : string) : all_digits s = true -> rstrip s = s.
Proof.
  induction s as [|c s IH]; [reflexivity|]. cbn [all_digits rstrip].
  intros H. apply andb_true_iff in H. destruct H as [Hc Hs].
  rewrite (IH Hs), (isdigit_not_space _ Hc). reflexivity.
Qed.

Lemma strip_digits (s : string) : all_digits s = true -> strip s = s.
Proof.
  intros H. unfold strip. destruct s as [|c s]; [reflexivity|].
  cbn [lstrip]. cbn [all_digits] in H. pose proof H as H'.
  apply andb_true_iff in H'. rewrite (isdigit_not_space _ (proj1 H')).
  apply rstrip_digits. exact H.
Qed.

Lemma int_digits_all (s : string) (acc : Z) (prev : bool) :
  all_digits s = true -> s <> "" \/ prev = true ->
  exists n, int_digits acc prev s = Some n.
Proof.
  revert acc prev. induction s as [|c s IH]; intros acc prev Hs Hne.
  - destruct Hne as [Hne | ->]; [contradiction | eexists; reflexivity].
  - cbn [all_digits] in Hs. apply andb_true_iff in Hs. destruct Hs as [Hc Hs].
    cbn [int_digits]. rewrite Hc. apply IH; [exact Hs | right; reflexivity].
Qed.

(** [int] reads every non-empty run of digits. *)
Lemma int_of_digits (s : string) :
  all_digits s = true -> s <> "" -> exists n, int s = Some n.
Proof.
  intros Hs Hne. unfold int. rewrite (strip_digits _ Hs).
  destruct (int_digits_all s 0 false Hs (or_introl Hne)) as [n Hn].
  destruct s as [|c s]; [contradiction|].
  cbn [all_digits] in Hs. apply andb_true_iff in Hs. destruct Hs as [Hc _].
  destruct (Ascii.eqb_spec c "+"%char) as [-> | Hplus]; [discriminate Hc|].
  destruct (Ascii.eqb_spec c "-"%char) as [-> | Hminus]; [discriminate Hc|].
  exists n. rewrite <- Hn.
  destruct c as [[] [] [] [] [] [] [] []]; try reflexivity; congruence.
Qed.

Lemma take_digits_all (s : string) : all_digits (take_digits s) = true.
Proof.
  induction s as [|c s IH]; [reflexivity|]. cbn [take_digits].
  destruct (isdigit c) eqn:E; [|reflexivity]. cbn [all_digits]. rewrite E. exact IH.
Qed.

Lemma re_search_digits_run (s digits : string) :
  re_search_digits s = Some digits -> all_digits digits = true /\ digits <> "".
Proof.
  revert digits. induction s as [|c s IH]; intros digits; cbn [re_search_digits];
    [discriminate|].
  destruct (isdigit c) eqn:E; [|apply IH].
  intros H. injection H as <-. split; [apply (take_digits_all (String c s))|].
  cbn [take_digits]. rewrite E. discriminate.
Qed.

(** The key of a row raises exactly when its Date is [None]. *)
Lemma get_sort_key_dated (row : Row) :
  has_date row -> get_sort_key row = Ok (key_of row).
Proof.
  intros H. unfold key_of. unfold has_date in H. unfold get_sort_key, get in *.
  destruct (row !! "Date") as [[|date]|]; [congruence| |reflexivity].
  destruct (re_search_digits date) as [digits|] eqn:E; [|reflexivity].
  destruct (re_search_digits_run _ _ E) as [Hd Hne].
  destruct (int_of_digits digits Hd Hne) as [n ->]. reflexivity.
Qed.

Lemma get_sort_key_undated (row : Row) :
  row !! "Date" = Some VNone ->
  get_sort_key row = Raise (Exn TypeError "expected string or bytes-like object").
Proof. intros H. unfold get_sort_key, get. rewrite H. reflexivity. Qed.

Lemma get_sort_key_cases (row : Row) :
  get_sort_key row = Ok (key_of row)
  \/ get_sort_key row = Raise (Exn TypeError "expected string or bytes-like object").
Proof.
  destruct (row !! "Date") as [[|date]|] eqn:E.
  - right. apply get_sort_key_undated, E.
  - left. apply get_sort_key_dated. unfold has_date. rewrite E. discriminate.
  - left. apply get_sort_key_dated. unfold has_date. rewrite E. discriminate.
Qed.




(** X5. When some row has [None] for its Date, as a row read from a line
    of one or two fields has, the sort raises [TypeError], and the writer
    raises it too before it opens the file: nothing is written, nothing
    is printed. *)
Theorem write_output_csv_undated (events : list Row) (row : Row) :
  In row events -> row !! "Date" = Some VNone ->
  exists e,
    sort_events events = Raise e /\ kind e = TypeError
    /\ forall output_file w, write_output_csv events output_file w = (w, Raise e).
Proof.
  intros Hin Hdate.
  exists (Exn TypeError "expected string or bytes-like object").
  assert (Hkeys : mapM get_sort_key events
                  = Raise (Exn TypeError "expected string or bytes-like object")).
  { induction events as [|row' rest IH]; [destruct Hin|]. cbn [mapM].
    destruct (get_sort_key_cases row') as [Hok | ->]; [|reflexivity].
    destruct Hin as [-> | Hin].
    - rewrite (get_sort_key_undated _ Hdate) in Hok. discriminate Hok.
    - rewrite Hok, (IH Hin). reflexivity. }
  assert (Hsort : sort_events events
                  = Raise (Exn TypeError "expected string or bytes-like object"))
    by (unfold sort_events; rewrite Hkeys; reflexivity).
  split; [exact Hsort|]. split; [reflexivity|].
  intros output_file w. unfold write_output_csv, io_bind, io_lift.
  rewrite Hsort. reflexivity.
Qed.

Lemma write_output_csv_undated_witness :
  In (dict_of_row fieldnames ["March"; "AI Meetup"])
     [row_jan_3; dict_of_row fieldnames ["March"; "AI Meetup"]]
  /\ dict_of_row fieldnames ["March"; "AI Meetup"] !! "Date" = Some VNone
  /\ exists e,
       sort_events [row_jan_3; dict_of_row fieldnames ["March"; "AI Meetup"]] = Raise e
       /\ kind e = TypeError
       /\ forall output_file w,
            write_output_csv [row_jan_3; dict_of_row fieldnames ["March"; "AI Meetup"]]
              output_file w = (w, Raise e).
Proof.
  assert (H1 : In (dict_of_row fieldnames ["March"; "AI Meetup"])
                 [row_jan_3; dict_of_row fieldnames ["March"; "AI Meetup"]])
    by (right; left; reflexivity).
  assert (H2 : dict_of_row fieldnames ["March"; "AI Meetup"] !! "Date" = Some VNone)
    by reflexivity.
  split; [exact H1|]. split; [exact H2|].
  exact (write_output_csv_undated _ _ H1 H2).
Defined.

End SortEvents.

(* ===================================================================== *)
(** * Further properties of the reader                                    *)
(* ===================================================================== *)

Section ReaderFurther.
Import MergeEvents.

Lemma read_rows_cons (current_month : string) (row : Row) (rest : list Row) :
  read_rows current_month (row :: rest)
  = if is_event (with_month current_month row)
    then with_month current_month row :: read_rows (month_after current_month row) rest
    else read_rows (month_after current_month row) rest.
Proof.
  cbn [read_rows]. unfold with_month, month_after, is_event.
  destruct (row !! "Month") as [[|[|c m]]|] eqn:EM; cbn [truthy];
    try (destruct (is_empty current_month); cbn [negb]);
    (match goal with
     | |- context [match ?r !! "Event" with _ => _ end] =>
         destruct (r !! "Event") as [[|[|d ev]]|]
     end; try reflexivity;
     destruct (startswith "Submit an event" (String d ev)); cbn [negb andb];
     try reflexivity;
     destruct (str_in (strip (String d ev)) [""; "Cerebral Valley"]); reflexivity).
Qed.

Lemma with_month_has_month (current_month : string) (row : Row) :
  is_empty (month_after current_month row) = false ->
  has_month (with_month current_month row).
Proof.
  unfold month_after, with_month, has_month.
  destruct (row !! "Month") as [[|[|c m]]|] eqn:EM; cbn [truthy]; intros H.
  - rewrite H. cbn [negb]. rewrite lookup_insert_eq.
    destruct current_month; [discriminate H | reflexivity].
  - rewrite H. cbn [negb]. rewrite lookup_insert_eq.
    destruct current_month; [discriminate H | reflexivity].
  - rewrite EM. reflexivity.
  - rewrite H. cbn [negb]. rewrite lookup_insert_eq.
    destruct current_month; [discriminate H | reflexivity].
Qed.


Lemma month_after_stays (current_month : string) (row : Row) :
  is_empty current_month = false -> is_empty (month_after current_month row) = false.
Proof.
  unfold month_after. destruct (row !! "Month") as [[|[|c m]]|]; auto.
Qed.

(** Once a month is running, every row returned has one. *)
Lemma read_rows_months (rows : list Row) (current_month : string) :
  is_empty current_month = false -> Forall has_month (read_rows current_month rows).
Proof.
  revert current_month. induction rows as [|row rest IH]; intros cm Hcm;
    [constructor|].
  rewrite read_rows_cons. pose proof (month_after_stays cm row Hcm) as Hafter.
  destruct (is_event _); [constructor|]; try apply IH; try exact Hafter.
  apply with_month_has_month, Hafter.
Qed.


Lemma read_rows_events (rows : list Row) (current_month : string) :
  Forall (fun row => is_event row = true) (read_rows current_month rows).
Proof.
  revert current_month. induction rows as [|row rest IH]; intros cm; [constructor|].
  rewrite read_rows_cons. destruct (is_event _) eqn:E; [constructor|]; auto.
Qed.



End ReaderFurther.

(* ===================================================================== *)
(** * Further properties of the extractor                                 *)
(* ===================================================================== *)

Section ExtractorFurther.
Import ParseTechWeek.

Lemma startswith_refl (s : string) : startswith s s = true.
Proof.
  induction s as [|c s IH]; [reflexivity|]. cbn [startswith].
  unfold ascii_eqb. rewrite Ascii.eqb_refl. exact IH.
Qed.

Lemma startswith_app (p s : string) : startswith p (p +:+ s) = true.
Proof.
  induction p as [|c p IH]; [reflexivity|].
  change (startswith (String c p) (String c (p +:+ s)) = true). cbn [startswith].
  unfold ascii_eqb. rewrite Ascii.eqb_refl. exact IH.
Qed.

Lemma contains_prefix (n h : string) : startswith n h = true -> contains n h = true.
Proof. intros H. destruct h; cbn [contains]; rewrite H; reflexivity. Qed.

(** A string of the list is found in the joined list. *)
Lemma contains_join (sep x : string) (l : list string) :
  In x l -> contains x (join sep l) = true.
Proof.
  induction l as [|s l IH]; intros Hin; [destruct Hin|].
  destruct l as [|s' l].
  - destruct Hin as [-> | []]. cbn [join]. apply contains_prefix, startswith_refl.
  - change (join sep (s :: s' :: l)) with (s +:+ sep +:+ join sep (s' :: l)).
    destruct Hin as [-> | Hin].
    + apply contains_prefix, startswith_app.
    + apply contains_app_r, contains_app_r, IH, Hin.
Qed.

Lemma find_some (p : node -> bool) (n found : node) :
  find p n = Some found -> In found (descendants n) /\ p found = true.
Proof.
  unfold find, find_all. intros H. apply filter_In.
  destruct (List.filter p (descendants n)) as [|x l]; [discriminate H|].
  injection H as ->. left. reflexivity.
Qed.

(** A group found by its two classes cannot carry a third. *)
Lemma sponsored_group_visible (item group : node) :
  classes_split item -> sponsored_group_of item = Some group ->
  str_in "w-condition-invisible" (node_classes group) = false.
Proof.
  intros Hsplit Hfind. apply find_some in Hfind. destruct Hfind as [Hin Hp].
  apply andb_true_iff in Hp. destruct Hp as [_ Hclass].
  pose proof (proj1 (List.Forall_forall _ _) Hsplit _ Hin) as Hcs.
  destruct group as [t|tag cs attrs kids]; [discriminate Hclass|].
  cbn [has_class node_classes] in *.
  destruct (str_in "w-condition-invisible" cs) eqn:Einv; [|reflexivity].
  apply str_in_In in Einv. apply orb_true_iff in Hclass.
  destruct Hclass as [Hone | Hall].
  - apply str_in_In in Hone.
    pose proof (proj1 (List.Forall_forall _ _) Hcs _ Hone) as Hc. discriminate Hc.
  - apply andb_true_iff in Hall. destruct Hall as [_ Hall].
    apply str_eqb_eq in Hall.
    pose proof (contains_join " " _ _ Einv) as Hc. rewrite <- Hall in Hc.
    discriminate Hc.
Qed.

Lemma sponsored_after_date (html_unescape : string -> string) (item : node) :
  sponsored (parse_event_item html_unescape item)
  = sponsored (extract_sponsored item
                 (extract_hosts html_unescape item
                    (extract_name html_unescape item new_event))).
Proof.
  unfold parse_event_item. cbv zeta.
  set (event := extract_sponsored item _).
  unfold extract_neighborhood, extract_url, extract_date, set_date_fields.
  repeat match goal with
         | |- context [match ?x with _ => _ end] => destruct x
         | |- context [if ?x then _ else _] => destruct x
         end; reflexivity.
Qed.

(** X7. The record is sponsored exactly when the container holds a div
    whose class attribute is [calendar-invite-group sponsored]: a group
    found that way has these two classes and no other, so the test for
    [w-condition-invisible] never turns it down. *)
Theorem sponsored_iff_group_found (html_unescape : string -> string) (item : node) :
  classes_split item ->
  sponsored (parse_event_item html_unescape item)
  = match sponsored_group_of item with
    | Some _ => true
    | None => false
    end.
Proof.
  intros Hsplit. rewrite sponsored_after_date. unfold extract_sponsored.
  fold (sponsored_group_of item).
  destruct (sponsored_group_of item) as [group|] eqn:E.
  - rewrite (sponsored_group_visible item group Hsplit E). reflexivity.
  - unfold extract_hosts, extract_name.
    repeat match goal with
           | |- context [match ?x with _ => _ end] => destruct x
           end; reflexivity.
Qed.

Lemma sponsored_iff_group_found_witness :
  classes_split item_hidden_sponsor
  /\ sponsored_group_of item_hidden_sponsor = None
  /\ sponsored (parse_event_item no_entities item_hidden_sponsor) = false.
Proof.
  assert (H : classes_split item_hidden_sponsor)
    by (repeat constructor).
  split; [exact H|]. split; [reflexivity|].
  rewrite (sponsored_iff_group_found no_entities item_hidden_sponsor H). reflexivity.
Defined.

Lemma str_not_empty (n : Z) : str n <> "".
Proof.
  unfold str, NilZero.string_of_int.
  destruct (Z.to_int n) as [d|d]; [|discriminate].
  destruct d; discriminate.
Qed.

(** Removing the spaces leaves no space. *)
Lemma replace_space_none (s : string) : contains " " (replace " " "" s) = false.
Proof.
  unfold replace. induction s as [|c s IH]; [reflexivity|].
  cbn [replace_from startswith String.length Nat.sub].
  destruct (ascii_eqb " " c) eqn:E; cbn [andb String.append].
  - exact IH.
  - cbn [contains startswith]. rewrite E, IH. reflexivity.
Qed.

Lemma scan_step_month (st : Scan) (text : string) (rest : list string) (m : string) :
  scan_month (scan_step st text rest) = Some m ->
  scan_month st = Some m \/ In m months.
Proof.
  unfold scan_step. destruct (str_in text months) eqn:E.
  - destruct (_ || _); cbn [scan_month]; intros H; injection H as <-;
      right; apply str_in_In, E.
  - destruct (_ || _); cbn [scan_month]; intros H; left; exact H.
Qed.

(** The month the scan ends with is one of the twelve abbreviations. *)
Lemma scan_month_known (texts : list string) (st : Scan) (m : string) :
  scan_month (scan st texts) = Some m -> scan_month st = Some m \/ In m months.
Proof.
  revert st. induction texts as [|text rest IH]; intros st H; [left; exact H|].
  rewrite scan_cons in H. destruct (IH _ H) as [Hstep | Hin]; [|right; exact Hin].
  apply scan_step_month in Hstep. exact Hstep.
Qed.

(** What the date block leaves in a record that had no date field. *)
Lemma set_date_fields_invariant (event : EventRecord) (texts : list string) :
  month event = "" -> day event = "" -> date event = "" -> time event = "" ->
  let dated := set_date_fields event texts in
  (month dated = "" -> day dated = "" /\ date dated = "" /\ time dated = "")
  /\ (month dated <> "" -> In (month dated) months)
  /\ (day dated <> "" ->
      date dated = full_month (month dated) +:+ " " +:+ day dated)
  /\ (day dated = "" -> date dated = "")
  /\ contains " " (time dated) = false.
Proof.
  intros Hm Hd Hdate Ht. cbv zeta. unfold set_date_fields.
  destruct (3 <=? length texts);
    [|rewrite Hm, Hd, Hdate, Ht; repeat split; auto; congruence].
  destruct (scan_month _) as [[|c m]|] eqn:Emonth;
    try (rewrite Hm, Hd, Hdate, Ht; repeat split; auto; congruence).
  assert (Hin : In (String c m) months).
  { destruct (scan_month_known _ _ _ Emonth) as [H | H]; [discriminate H | exact H]. }
  destruct (scan_day_num _) as [n|]; [destruct (n =? 0)%Z|];
    destruct (scan_time _) as [[|c' t']|];
    cbn [month day date time set_month set_day set_date set_time];
    rewrite ?Hd, ?Hdate, ?Ht;
    (split; [intros H; discriminate H|]);
    (split; [intros _; exact Hin|]);
    (split; [intros H; first [reflexivity | contradiction]|]);
    (split; [intros H; first [reflexivity | exfalso; exact (str_not_empty _ H)]|]);
    first [apply replace_space_none | reflexivity].
Qed.

Lemma new_event_steps (html_unescape : string -> string) (item : node) :
  let event := extract_sponsored item
                 (extract_hosts html_unescape item
                    (extract_name html_unescape item new_event)) in
  month event = "" /\ day event = "" /\ date event = "" /\ time event = ""
  /\ location event = "San Francisco, CA".
Proof.
  cbv zeta. unfold extract_sponsored, extract_hosts, extract_name.
  repeat match goal with
         | |- context [match ?x with _ => _ end] => destruct x
         | |- context [if ?x then _ else _] => destruct x
         end; repeat split; reflexivity.
Qed.

Lemma later_steps (item : node) (event : EventRecord) :
  location event = "San Francisco, CA" ->
  let parsed := extract_neighborhood item (extract_url item event) in
  month parsed = month event /\ day parsed = day event
  /\ date parsed = date event /\ time parsed = time event
  /\ exists prefix, location parsed = prefix +:+ "San Francisco, CA".
Proof.
  intros Hloc. cbv zeta. unfold extract_neighborhood, extract_url.
  destruct (find (fun n => is_tag "a" n && has_class "event-link" n) item) as [link|];
    [destruct (node_attr link "href") as [[|c href]|]|];
    (destruct (find (has_attr "fs-list-field" "neighborhood") item) as [nb|];
     [destruct (negb (is_empty (get_text nb)))|]);
    cbn [month day date time location set_url set_location];
    (repeat split; try reflexivity);
    first [ exists ""; exact Hloc
          | exists (get_text nb +:+ ", "); rewrite append_assoc; reflexivity ].
Qed.

(** X8. In every record the date fields hang together: a month is one of
    the twelve abbreviations; without a month there is no day, date or
    time; a day comes with the date [full month, space, day] and there is
    no date without a day; the time holds no space; and the location ends
    with the city. *)
Theorem parse_event_item_fields (html_unescape : string -> string) (item : node) :
  let event := parse_event_item html_unescape item in
  (month event = "" -> day event = "" /\ date event = "" /\ time event = "")
  /\ (month event <> "" -> In (month event) months)
  /\ (day event <> "" ->
      date event = full_month (month event) +:+ " " +:+ day event)
  /\ (day event = "" -> date event = "")
  /\ contains " " (time event) = false
  /\ exists prefix, location event = prefix +:+ "San Francisco, CA".
Proof.
  cbv zeta. unfold parse_event_item. cbv zeta.
  destruct (new_event_steps html_unescape item) as [Hm [Hd [Hdate [Ht Hloc]]]].
  set (event := extract_sponsored item _) in *.
  assert (Hdated : location (extract_date item event) = "San Francisco, CA").
  { unfold extract_date, set_date_fields.
    repeat match goal with
           | |- context [match ?x with _ => _ end] => destruct x
           | |- context [if ?x then _ else _] => destruct x
           end; exact Hloc. }
  destruct (later_steps item (extract_date item event) Hdated)
    as [-> [-> [-> [-> Hprefix]]]].
  assert (Hinv : let dated := extract_date item event in
            (month dated = "" -> day dated = "" /\ date dated = "" /\ time dated = "")
            /\ (month dated <> "" -> In (month dated) months)
            /\ (day dated <> "" ->
                date dated = full_month (month dated) +:+ " " +:+ day dated)
            /\ (day dated = "" -> date dated = "")
            /\ contains " " (time dated) = false).
  { unfold extract_date.
    destruct (find _ item) as [date_wrapper|].
    - apply set_date_fields_invariant; assumption.
    - cbv zeta. rewrite Hm, Hd, Hdate, Ht. repeat split; auto; congruence. }
  destruct Hinv as [H1 [H2 [H3 [H4 H5]]]]. repeat split; try assumption.
  - apply H1; assumption.
  - apply H1; assumption.
  - apply H1; assumption.
Qed.





End ExtractorFurther.

(* ===================================================================== *)
(** * From the formatter to the reader                                    *)
(* ===================================================================== *)

Section FormatThenRead.
Import ParseTechWeek MergeEvents.

Lemma startswith_rstrip (m t : string) :
  ends_nonspace m = true -> startswith m t = true -> startswith m (rstrip t) = true.
Proof.
  revert t. induction m as [|a m IH]; intros t Hend Hpre; [reflexivity|].
  destruct t as [|c t]; [discriminate Hpre|].
  cbn [startswith] in Hpre. apply andb_true_iff in Hpre. destruct Hpre as [Hac Hpre].
  cbn [rstrip]. destruct m as [|b m].
  - cbn [ends_nonspace] in Hend. unfold ascii_eqb in Hac.
    apply Ascii.eqb_eq in Hac. subst c.
    apply negb_true_iff in Hend. rewrite Hend. cbn [andb startswith].
    unfold ascii_eqb. rewrite Ascii.eqb_refl. reflexivity.
  - assert (Hrec : startswith (String b m) (rstrip t) = true) by (apply IH; assumption).
    destruct (rstrip t) as [|d r]; [discriminate Hrec|].
    cbn [is_empty]. rewrite andb_false_r. cbn [startswith]. rewrite Hac. exact Hrec.
Qed.

Lemma contains_nonempty (m : string) : m <> "" -> contains m "" = false.
Proof. destruct m; [contradiction | reflexivity]. Qed.

Lemma contains_rstrip (m t : string) :
  ends_nonspace m = true -> contains m t = true -> contains m (rstrip t) = true.
Proof.
  intros Hend. assert (Hne : m <> "") by (intros ->; discriminate Hend).
  induction t as [|c t IH]; intros H.
  - rewrite (contains_nonempty m Hne) in H. discriminate H.
  - cbn [contains] in H. apply orb_true_iff in H. destruct H as [H | H].
    + apply contains_prefix, startswith_rstrip; assumption.
    + specialize (IH H). cbn [rstrip]. destruct (rstrip t) as [|d r].
      * rewrite (contains_nonempty m Hne) in IH. discriminate IH.
      * cbn [is_empty]. rewrite andb_false_r. cbn [contains]. cbn [contains] in IH.
        rewrite IH. apply orb_true_r.
Qed.

Lemma contains_lstrip (m t : string) :
  starts_nonspace m = true -> contains m t = true -> contains m (lstrip t) = true.
Proof.
  intros Hstart. induction t as [|c t IH]; intros H; [exact H|].
  cbn [lstrip]. destruct (isspace c) eqn:Ec; [|exact H].
  apply IH. cbn [contains] in H. apply orb_true_iff in H. destruct H as [H | H];
    [|exact H].
  destruct m as [|a m]; [discriminate Hstart|].
  cbn [startswith] in H. apply andb_true_iff in H. destruct H as [Hac _].
  unfold ascii_eqb in Hac. apply Ascii.eqb_eq in Hac. subst c.
  cbn [starts_nonspace] in Hstart. rewrite Ec in Hstart. discriminate Hstart.
Qed.

(** Trimming keeps a needle that neither starts nor ends with
    whitespace. *)
Lemma contains_strip (m t : string) :
  starts_nonspace m = true -> ends_nonspace m = true ->
  contains m t = true -> contains m (strip t) = true.
Proof.
  intros Hs He H. unfold strip. apply contains_rstrip; [exact He|].
  apply contains_lstrip; assumption.
Qed.

(** A title with the marker passes the tests of the reader unless it
    starts with the footer prefix. *)
Lemma is_event_marked (shown title : string) (event : EventRecord) :
  contains MARKER title = true ->
  is_event (csv_row shown title event) = negb (startswith "Submit an event" title).
Proof.
  intros H. unfold is_event, csv_row.
  rewrite !(lookup_insert_ne _ _ "Event") by discriminate. rewrite lookup_insert_eq.
  destruct title as [|c title]; [discriminate H|].
  pose proof (contains_strip MARKER _ eq_refl eq_refl H) as Hstrip.
  destruct (str_in (strip (String c title)) [""; "Cerebral Valley"]) eqn:E;
    [|rewrite andb_true_r; reflexivity].
  apply str_in_In in E. destruct E as [E | [E | []]]; rewrite <- E in Hstrip;
    discriminate Hstrip.
Qed.

Lemma csv_row_set_month (shown month_shown title : string) (event : EventRecord) :
  <["Month" := VStr month_shown]> (csv_row shown title event)
  = csv_row month_shown title event.
Proof.
  unfold csv_row. apply map_eq. intros k.
  rewrite !lookup_insert. repeat case_decide; subst; try reflexivity; congruence.
Qed.

Lemma csv_row_month (shown title : string) (event : EventRecord) :
  csv_row shown title event !! "Month" = Some (VStr shown).
Proof.
  unfold csv_row. rewrite !(lookup_insert_ne _ _ "Month") by discriminate.
  apply lookup_insert_eq.
Qed.

Lemma with_month_csv_row (current_month shown title : string) (event : EventRecord) :
  with_month current_month (csv_row shown title event)
  = csv_row (if is_empty shown then current_month else shown) title event.
Proof.
  unfold with_month. rewrite csv_row_month.
  destruct shown as [|c shown]; cbn [truthy is_empty]; [|reflexivity].
  destruct current_month as [|c cm]; cbn [is_empty negb]; [reflexivity|].
  apply csv_row_set_month.
Qed.

Lemma month_after_csv_row (current_month shown title : string) (event : EventRecord) :
  month_after current_month (csv_row shown title event)
  = if is_empty shown then current_month else shown.
Proof.
  unfold month_after. rewrite csv_row_month. destruct shown; reflexivity.
Qed.

Lemma format_loop_cons (current_month : option string) (event : EventRecord)
    (rest : list EventRecord) :
  is_empty (name event) = false ->
  format_loop current_month (event :: rest)
  = csv_row (if bool_decide (Some (month_name event) = current_month)
             then "" else month_name event)
            (attributed_title (name event)) event
    :: format_loop (if negb (is_empty (month_name event))
                    then Some (month_name event) else current_month) rest.
Proof. intros H. cbn [format_loop]. rewrite H. reflexivity. Qed.

(** The reader, run on the rows of the formatter, holds the month that
    runs in the formatter. *)
Lemma format_loop_read (events : list EventRecord) (current_month : option string) :
  current_month <> Some "" ->
  read_rows (running_month current_month) (format_loop current_month events)
  = rows_with_months (running_month current_month) events.
Proof.
  revert current_month. induction events as [|event rest IH]; intros cm Hcm;
    [reflexivity|].
  cbn [rows_with_months]. destruct (is_empty (name event)) eqn:Ename;
    [cbn [format_loop]; rewrite Ename; apply IH, Hcm|].
  rewrite (format_loop_cons _ _ _ Ename), read_rows_cons.
  rewrite with_month_csv_row, month_after_csv_row.
  rewrite is_event_marked by apply attributed_title_marked.
  set (m := month_name event).
  assert (Hrun : (if is_empty (if bool_decide (Some m = cm) then "" else m)
                  then running_month cm
                  else if bool_decide (Some m = cm) then "" else m)
                 = if is_empty m then running_month cm else m).
  { destruct (bool_decide (Some m = cm)) eqn:Ecm.
    - apply bool_decide_eq_true in Ecm. subst cm. cbn [is_empty running_month].
      destruct (is_empty m) eqn:Em; [apply is_empty_true in Em|]; congruence.
    - destruct (is_empty m); reflexivity. }
  rewrite Hrun.
  assert (Hnext : running_month (if negb (is_empty m) then Some m else cm)
                  = if is_empty m then running_month cm else m)
    by (destruct (is_empty m); reflexivity).
  rewrite <- Hnext.
  rewrite IH.
  - destruct (startswith "Submit an event" (attributed_title (name event)));
      reflexivity.
  - destruct (is_empty m) eqn:Em; cbn [negb]; [exact Hcm|].
    intros H. injection H as H. rewrite H in Em. discriminate Em.
Qed.

(** X10. The reader undoes the run-length encoding of the formatter: read
    back, every record comes under the month that ran at it, with its
    title, date, time, location and link; the only records lost are those
    whose title starts with [Submit an event]. *)
Theorem format_then_read (events : list EventRecord) :
  read_rows "" (format_for_csv events) = rows_with_months "" events.
Proof. apply (format_loop_read events None). discriminate. Qed.

End FormatThenRead.

(* ===================================================================== *)
(** * Saving, then reading                                                *)
(* ===================================================================== *)

Section SaveThenRead.
Import ParseTechWeek MergeEvents TechWeekMain.

Lemma parse_line_feed (r : Reader) (s : string) :
  parse_line r s = (do r' <- feed r s; parse_process_char r' None).
Proof.
  revert r. induction s as [|c s IH]; intros r; cbn [parse_line feed bind];
    [reflexivity|].
  destruct (parse_process_char r (Some c)); cbn [bind]; [apply IH | reflexivity].
Qed.

Lemma feed_app (r : Reader) (a b : string) :
  feed r (a +:+ b) = (do r' <- feed r a; feed r' b).
Proof.
  revert r. induction a as [|c a IH]; intros r; [reflexivity|].
  change (String c a +:+ b) with (String c (a +:+ b)). cbn [feed].
  destruct (parse_process_char r (Some c)); cbn [bind]; [apply IH | reflexivity].
Qed.

Lemma parse_line_app (r : Reader) (a b : string) :
  parse_line r (a +:+ b) = (do r' <- feed r a; parse_line r' b).
Proof.
  rewrite !parse_line_feed, feed_app.
  destruct (feed r a); cbn [bind]; [rewrite parse_line_feed|]; reflexivity.
Qed.

(** ** A field that needs no quotes *)

Lemma needs_quotes_cons (c : ascii) (s : string) :
  needs_quotes (String c s) = false ->
  ascii_eqb c comma = false /\ ascii_eqb c dquote = false
  /\ is_newline c = false /\ needs_quotes s = false.
Proof.
  unfold needs_quotes. cbn [list_ascii_of_string existsb].
  rewrite !orb_false_iff. unfold is_newline. rewrite orb_false_iff. tauto.
Qed.

Lemma feed_in_field (acc : list string) (f s : string) :
  needs_quotes s = false ->
  feed (mkReader IN_FIELD acc f) s = Ok (mkReader IN_FIELD acc (f +:+ s)).
Proof.
  revert f. induction s as [|c s IH]; intros f H.
  - cbn [feed]. rewrite append_empty_r. reflexivity.
  - apply needs_quotes_cons in H. destruct H as [Hc [Hq [Hn Hs]]].
    cbn [feed]. unfold parse_process_char. cbn [state]. rewrite Hn, Hc.
    cbn [bind]. unfold parse_add_char. cbn [fields field]. rewrite (IH _ Hs).
    rewrite append_assoc. reflexivity.
Qed.

Lemma feed_unquoted (acc : list string) (r : Reader) (c : ascii) (s : string) :
  at_field_start acc r -> needs_quotes (String c s) = false ->
  feed r (String c s) = Ok (mkReader IN_FIELD acc (String c s)).
Proof.
  intros [Hstate [Hacc Hfield]] H.
  apply needs_quotes_cons in H. destruct H as [Hc [Hq [Hn Hs]]].
  cbn [feed]. unfold parse_process_char, start_field.
  destruct Hstate as [-> | ->]; rewrite Hn, Hq, Hc; cbn [bind];
    unfold parse_add_char; rewrite Hacc, Hfield; rewrite (feed_in_field _ _ _ Hs);
    reflexivity.
Qed.

(** ** A field in quotes *)

Lemma no_newline_cons (c : ascii) (s : string) :
  no_newline (String c s) = true -> is_newline c = false /\ no_newline s = true.
Proof.
  cbn [no_newline]. rewrite andb_true_iff, negb_true_iff. tauto.
Qed.

Lemma quote_in_quotes (acc : list string) (f : string) :
  parse_process_char (mkReader IN_QUOTED_FIELD acc f) (Some dquote)
  = Ok (mkReader QUOTE_IN_QUOTED_FIELD acc f).
Proof. reflexivity. Qed.

Lemma quote_after_quote (acc : list string) (f : string) :
  parse_process_char (mkReader QUOTE_IN_QUOTED_FIELD acc f) (Some dquote)
  = Ok (mkReader IN_QUOTED_FIELD acc (f +:+ String dquote "")).
Proof. reflexivity. Qed.

Lemma char_in_quotes (acc : list string) (f : string) (c : ascii) :
  ascii_eqb c dquote = false ->
  parse_process_char (mkReader IN_QUOTED_FIELD acc f) (Some c)
  = Ok (mkReader IN_QUOTED_FIELD acc (f +:+ String c "")).
Proof.
  intros H. unfold parse_process_char. cbn [state]. rewrite H. reflexivity.
Qed.

Lemma feed_in_quotes (acc : list string) (f s : string) :
  feed (mkReader IN_QUOTED_FIELD acc f) (double_quotes s)
  = Ok (mkReader IN_QUOTED_FIELD acc (f +:+ s)).
Proof.
  revert f. induction s as [|c s IH]; intros f.
  - cbn [double_quotes feed]. rewrite append_empty_r. reflexivity.
  - cbn [double_quotes]. destruct (ascii_eqb c dquote) eqn:Eq.
    + unfold ascii_eqb in Eq. apply Ascii.eqb_eq in Eq. subst c.
      cbn [feed]. rewrite quote_in_quotes. cbn [bind].
      rewrite quote_after_quote. cbn [bind].
      rewrite IH, append_assoc. reflexivity.
    + cbn [feed]. rewrite (char_in_quotes _ _ _ Eq). cbn [bind].
      rewrite IH, append_assoc. reflexivity.
Qed.

Lemma feed_quoted (acc : list string) (r : Reader) (s : string) :
  at_field_start acc r ->
  feed r (quoted s) = Ok (mkReader QUOTE_IN_QUOTED_FIELD acc s).
Proof.
  intros [Hstate [Hacc Hfield]]. unfold quoted. cbn [feed].
  assert (Hopen : parse_process_char r (Some dquote)
                  = Ok (mkReader IN_QUOTED_FIELD acc "")).
  { unfold parse_process_char, start_field.
    destruct Hstate as [-> | ->];
      change (is_newline dquote) with false;
      change (ascii_eqb dquote dquote) with true; cbv iota;
      unfold set_state; rewrite Hacc, Hfield; reflexivity. }
  rewrite Hopen. cbn [bind]. rewrite feed_app, feed_in_quotes. cbn [bind feed].
  unfold parse_process_char. cbn [state].
  change (ascii_eqb dquote dquote) with true. reflexivity.
Qed.

(** ** A record, field by field *)

Lemma field_then_comma (acc : list string) (r : Reader) (s : string) :
  at_field_start acc r ->
  (do r' <- feed r (csv_field s); parse_process_char r' (Some comma))
  = Ok (mkReader START_FIELD (acc ++ [s]) "").
Proof.
  intros Hr. unfold csv_field. destruct (needs_quotes s) eqn:Eq.
  - rewrite (feed_quoted acc r s Hr). reflexivity.
  - destruct s as [|c s].
    + destruct Hr as [Hstate [Hacc Hfield]]. cbn [feed bind].
      unfold parse_process_char, start_field.
      destruct Hstate as [-> | ->];
        change (is_newline comma) with false;
        change (ascii_eqb comma dquote) with false;
        change (ascii_eqb comma comma) with true; cbv iota;
        unfold parse_save_field; rewrite Hacc, Hfield; reflexivity.
    + rewrite (feed_unquoted acc r c s Hr Eq). reflexivity.
Qed.

Lemma field_then_end (acc : list string) (s : string) :
  (do r' <- feed (mkReader START_FIELD acc "") (csv_field s); parse_line r' nl)
  = Ok (mkReader START_RECORD (acc ++ [s]) "").
Proof.
  assert (Hr : at_field_start acc (mkReader START_FIELD acc "")).
  { split; [left; reflexivity | split; reflexivity]. }
  unfold csv_field. destruct (needs_quotes s) eqn:Eq.
  - rewrite (feed_quoted acc _ s Hr). reflexivity.
  - destruct s as [|c s].
    + reflexivity.
    + rewrite (feed_unquoted acc _ c s Hr Eq). reflexivity.
Qed.

Lemma join_cons (sep s s' : string) (l : list string) :
  join sep (s :: s' :: l) = s +:+ sep +:+ join sep (s' :: l).
Proof. reflexivity. Qed.

Lemma record_rest (record : list string) (acc : list string) :
  record <> [] ->
  parse_line (mkReader START_FIELD acc "") (record_line record)
  = Ok (mkReader START_RECORD (acc ++ record) "").
Proof.
  revert acc. induction record as [|f record IH]; intros acc Hne; [contradiction|].
  unfold record_line in *. destruct record as [|f' record].
  - cbn [map join]. rewrite parse_line_app. apply field_then_end.
  - cbn [map]. rewrite join_cons, !append_assoc, parse_line_app.
    change ("," +:+ join "," (csv_field f' :: map csv_field record) +:+ nl)
      with (String comma (join "," (map csv_field (f' :: record)) +:+ nl)).
    cbn [parse_line].
    pose proof (field_then_comma acc (mkReader START_FIELD acc "") f) as H.
    destruct (feed (mkReader START_FIELD acc "") (csv_field f)) as [r'|e];
      cbn [bind] in H |- *.
    + rewrite H by (split; [left; reflexivity | split; reflexivity]).
      cbn [bind]. rewrite IH by discriminate.
      rewrite <- app_assoc. reflexivity.
    + discriminate H. split; [left; reflexivity | split; reflexivity].
Qed.

Lemma record_parsed (f f' : string) (record : list string) :
  parse_line parse_reset (record_line (f :: f' :: record))
  = Ok (mkReader START_RECORD (f :: f' :: record) "").
Proof.
  unfold record_line. cbn [map]. rewrite join_cons, !append_assoc, parse_line_app.
  change ("," +:+ join "," (csv_field f' :: map csv_field record) +:+ nl)
    with (String comma (record_line (f' :: record))).
  cbn [parse_line].
  assert (Hr : at_field_start [] parse_reset).
  { split; [right; reflexivity | split; reflexivity]. }
  pose proof (field_then_comma [] parse_reset f Hr) as H.
  destruct (feed parse_reset (csv_field f)) as [r'|e]; cbn [bind] in H |- *;
    [|discriminate H].
  rewrite H. cbn [bind]. rewrite record_rest by discriminate. reflexivity.
Qed.

(** ** The lines of the file *)

Lemma no_newline_app (a b : string) :
  no_newline (a +:+ b) = no_newline a && no_newline b.
Proof.
  induction a as [|c a IH]; [reflexivity|].
  change (no_newline (String c (a +:+ b)) = no_newline (String c a) && no_newline b).
  cbn [no_newline]. rewrite IH, andb_assoc. reflexivity.
Qed.

Lemma no_newline_double_quotes (s : string) :
  no_newline s = true -> no_newline (double_quotes s) = true.
Proof.
  induction s as [|c s IH]; [reflexivity|]. intros H.
  apply no_newline_cons in H. destruct H as [Hc Hs]. cbn [double_quotes].
  destruct (ascii_eqb c dquote); cbn [no_newline]; rewrite (IH Hs);
    [reflexivity | rewrite Hc; reflexivity].
Qed.

Lemma no_newline_csv_field (s : string) :
  no_newline s = true -> no_newline (csv_field s) = true.
Proof.
  intros H. unfold csv_field. destruct (needs_quotes s); [|exact H].
  unfold quoted. cbn [no_newline]. rewrite no_newline_app.
  rewrite (no_newline_double_quotes s H). reflexivity.
Qed.

Lemma no_newline_join (record : list string) :
  one_line record -> no_newline (join "," (map csv_field record)) = true.
Proof.
  intros H. induction H as [|f record Hf Hrecord IH]; [reflexivity|].
  destruct record as [|f' record].
  - cbn [map join]. apply no_newline_csv_field, Hf.
  - cbn [map]. rewrite join_cons, !no_newline_app.
    rewrite (no_newline_csv_field f Hf). cbn [map] in IH. rewrite IH. reflexivity.
Qed.

Lemma universal_newlines_crlf (body rest : string) :
  no_newline body = true ->
  universal_newlines (body +:+ lineterminator +:+ rest)
  = body +:+ nl +:+ universal_newlines rest.
Proof.
  induction body as [|c body IH]; intros H.
  - reflexivity.
  - apply no_newline_cons in H. destruct H as [Hc Hb].
    change (universal_newlines (String c (body +:+ lineterminator +:+ rest))
            = String c (body +:+ nl +:+ universal_newlines rest)).
    cbn [universal_newlines]. rewrite (not_newline_not_cr c Hc), (IH Hb).
    reflexivity.
Qed.

Lemma readlines_records (records : list (list string)) :
  Forall one_line records ->
  readlines (join "" (map record_text records)) = map record_line records.
Proof.
  intros H. induction H as [|record records Hrecord _ IH]; [reflexivity|].
  cbn [map]. rewrite join_empty_cons. unfold record_text at 1.
  rewrite append_assoc. unfold readlines.
  rewrite universal_newlines_crlf by (apply no_newline_join, Hrecord).
  rewrite lines_from_body by (apply no_newline_join, Hrecord).
  fold (readlines (join "" (map record_text records))). rewrite IH. reflexivity.
Qed.

Lemma csv_reader_records (records : list (list string)) :
  Forall six_fields records ->
  csv_reader (map record_line records) = Ok records.
Proof.
  unfold csv_reader. intros H.
  induction H as [|record records [Hlen _] _ IH]; [reflexivity|].
  cbn [map]. rewrite reader_rows_cons.
  destruct record as [|f [|f' record]]; [discriminate Hlen | discriminate Hlen |].
  rewrite record_parsed. cbn [bind state_is_start_record state].
  rewrite IH. reflexivity.
Qed.

Lemma six_fields_kept (records : list (list string)) :
  Forall six_fields records ->
  filter (fun row => negb (is_nil row)) records = records.
Proof.
  intros H. induction H as [|record records [Hlen _] _ IH]; [reflexivity|].
  destruct record; [discriminate Hlen|].
  rewrite filter_cons. cbn [is_nil negb]. 
  destruct (decide _) as [_|Hn]; [rewrite IH; reflexivity|].
  exfalso. apply Hn. exact I.
Qed.

Lemma six_fields_one_line (records : list (list string)) :
  Forall six_fields records -> Forall one_line records.
Proof.
  intros H. eapply Forall_impl; [exact H|]. intros record [_ H']. exact H'.
Qed.

Lemma DictReader_records (records : list (list string)) :
  Forall six_fields records ->
  DictReader (readlines (join "" (map record_text records))) (Some fieldnames)
  = Ok (map (dict_of_row fieldnames) records).
Proof.
  intros H. unfold DictReader.
  rewrite readlines_records by (apply six_fields_one_line, H).
  rewrite (csv_reader_records records H). cbn [bind].
  rewrite (six_fields_kept records H). reflexivity.
Qed.

(** ** The writer *)

Lemma dict_to_list_record (record : list string) :
  length record = 6 ->
  dict_to_list fieldnames (dict_of_row fieldnames record) = Ok (map VStr record).
Proof.
  intros H.
  destruct record as [|a [|b [|c [|d [|e [|f [|g record]]]]]]]; try discriminate H.
  reflexivity.
Qed.

Lemma writerow_record (record : list string) :
  length record = 6 -> writerow (map VStr record) = record_text record.
Proof.
  intros H.
  destruct record as [|a [|b [|c [|d [|e [|f [|g record]]]]]]]; try discriminate H.
  reflexivity.
Qed.

Lemma write_rows_records (records : list (list string)) :
  Forall six_fields records ->
  write_rows (map (dict_of_row fieldnames) records)
  = (join "" (map record_text records), None).
Proof.
  intros H. induction H as [|record records [Hlen _] _ IH]; [reflexivity|].
  cbn [map write_rows]. rewrite (dict_to_list_record record Hlen), IH.
  rewrite (writerow_record record Hlen), join_empty_cons. reflexivity.
Qed.

Lemma six_columns_records (rows : list Row) :
  Forall six_columns rows ->
  exists records, Forall six_fields records
                  /\ rows = map (dict_of_row fieldnames) records.
Proof.
  intros H. induction H as [|row rows [record [Hrecord ->]] _ [records [Hrecords ->]]].
  - exists []. split; [constructor | reflexivity].
  - exists (record :: records). split; [constructor; assumption | reflexivity].
Qed.

Lemma save_then_read_records
    (records : list (list string)) (filename : string) (w : World) :
  records <> [] -> is_published filename = false -> Forall six_fields records ->
  exists w1,
    save_to_csv (map (dict_of_row fieldnames) records) filename w = (w1, Ok tt)
    /\ read_csv filename w1
       = (w1, Ok (read_rows "" (map (dict_of_row fieldnames) records))).
Proof.
  intros Hne Hname Hrecords. unfold save_to_csv.
  assert (Hnil : is_nil (map (dict_of_row fieldnames) records) = false).
  { destruct records; [contradiction | reflexivity]. }
  rewrite Hnil.
  rewrite (write_rows_records records Hrecords).
  unfold io_bind, write_file, print. cbn [files stdout stderr].
  eexists. split; [reflexivity|].
  unfold read_csv, io_bind, path_exists, read_file, io_lift, io_ret. cbn [files].
  rewrite lookup_insert_eq.
  rewrite bool_decide_eq_true_2 by (eexists; reflexivity). cbn [negb files].
  rewrite ?lookup_insert_eq.
  rewrite Hname, (DictReader_records records Hrecords). reflexivity.
Qed.

(** X11. Rows of the six columns, saved by the extractor and read by the
    merger from the same file, come back as the reader takes them from the
    rows themselves: commas and quotes in a field survive the file.  The
    rows are not empty, no field holds a newline, and the name of the file
    is not one the merger takes for the published file. *)
Theorem save_then_read (rows : list Row) (filename : string) (w : World) :
  rows <> [] -> is_published filename = false -> Forall six_columns rows ->
  exists w1, save_to_csv rows filename w = (w1, Ok tt)
             /\ read_csv filename w1 = (w1, Ok (read_rows "" rows)).
Proof.
  intros Hne Hname Hrows.
  destruct (six_columns_records rows Hrows) as [records [Hrecords ->]].
  apply save_then_read_records; [|exact Hname | exact Hrecords].
  intros ->. apply Hne. reflexivity.
Qed.

Lemma save_then_read_witness :
  [dict_of_row fieldnames record_to_quote] <> []
  /\ is_published "tech_week_events.csv" = false
  /\ Forall six_columns [dict_of_row fieldnames record_to_quote]
  /\ exists w1,
       save_to_csv [dict_of_row fieldnames record_to_quote]
                   "tech_week_events.csv" empty_world = (w1, Ok tt)
       /\ read_csv "tech_week_events.csv" w1
          = (w1, Ok (read_rows "" [dict_of_row fieldnames record_to_quote])).
Proof.
  assert (H1 : [dict_of_row fieldnames record_to_quote] <> []) by discriminate.
  assert (H2 : is_published "tech_week_events.csv" = false) by reflexivity.
  assert (H3 : Forall six_columns [dict_of_row fieldnames record_to_quote]).
  { constructor; [|constructor]. exists record_to_quote.
    split; [|reflexivity]. split; [reflexivity|].
    unfold one_line, record_to_quote. repeat constructor. }
  split; [exact H1|]. split; [exact H2|]. split; [exact H3|].
  exact (save_then_read _ "tech_week_events.csv" empty_world H1 H2 H3).
Defined.

(** ** The rows of the formatter in the file *)

Lemma no_newline_month_name (event : EventRecord) :
  no_newline (month event) = true -> no_newline (month_name event) = true.
Proof.
  intros H. unfold month_name. destruct (negb (is_empty (month event))); [|exact H].
  unfold table_get.
  destruct (List.find _ month_map) as [kv|] eqn:Efind; [|exact H].
  apply List.find_some in Efind. destruct Efind as [Hin _].
  cbn [month_map In] in Hin.
  repeat (destruct Hin as [<- | Hin]; [reflexivity|]). contradiction.
Qed.

Lemma no_newline_attributed_title (title : string) :
  no_newline title = true -> no_newline (attributed_title title) = true.
Proof.
  intros H. unfold attributed_title.
  destruct (negb (contains MARKER title)); [|exact H].
  rewrite no_newline_app, H. reflexivity.
Qed.

Lemma csv_row_six_columns (shown title : string) (event : EventRecord) :
  no_newline shown = true -> no_newline title = true -> printable event ->
  six_columns (csv_row shown title event).
Proof.
  intros Hshown Htitle [_ [Hdate [Htime [Hlocation [Hurl _]]]]].
  exists [shown; title; date event; time event; location event; url event].
  split; [|reflexivity]. split; [reflexivity|].
  unfold one_line. repeat (constructor; [assumption|]). constructor.
Qed.

Lemma format_loop_six_columns (events : list EventRecord)
    (current_month : option string) :
  Forall printable events -> Forall six_columns (format_loop current_month events).
Proof.
  intros H. revert current_month.
  induction H as [|event rest Hevent _ IH]; intros cm; [constructor|].
  destruct (is_empty (name event)) eqn:Ename;
    [cbn [format_loop]; rewrite Ename; apply IH|].
  rewrite (format_loop_cons _ _ _ Ename). constructor; [|apply IH].
  apply csv_row_six_columns; [| |exact Hevent].
  - destruct (bool_decide _); [reflexivity|].
    apply no_newline_month_name. apply Hevent.
  - apply no_newline_attributed_title. apply Hevent.
Qed.

Lemma format_loop_named (events : list EventRecord) (current_month : option string) :
  Exists named events -> format_loop current_month events <> [].
Proof.
  intros H. revert current_month.
  induction H as [event rest Hevent | event rest _ IH]; intros cm.
  - rewrite (format_loop_cons _ _ _ Hevent). discriminate.
  - destruct (is_empty (name event)) eqn:Ename;
      [cbn [format_loop]; rewrite Ename; apply IH|].
    rewrite (format_loop_cons _ _ _ Ename). discriminate.
Qed.

(** X12. What the extractor saves is what the merger reads: the formatted
    records, saved and read back, are the records each under the month that
    ran at it, but for those whose title starts with [Submit an event].
    Some record has a name, no field holds a newline, and the name of the
    file is not one the merger takes for the published file. *)
Theorem formatted_events_reach_the_reader
    (events : list EventRecord) (filename : string) (w : World) :
  Forall printable events -> Exists named events ->
  is_published filename = false ->
  exists w1, save_to_csv (format_for_csv events) filename w = (w1, Ok tt)
             /\ read_csv filename w1 = (w1, Ok (rows_with_months "" events)).
Proof.
  intros Hprintable Hnamed Hname.
  pose proof (format_loop_named events None Hnamed) as Hne.
  destruct (six_columns_records _ (format_loop_six_columns events None Hprintable))
    as [records [Hrecords Erows]].
  fold (format_for_csv events) in Erows, Hne.
  assert (Hsome : records <> []) by (intros ->; apply Hne; exact Erows).
  destruct (save_then_read_records records filename w Hsome Hname Hrecords)
    as [w1 [Hsave Hread]].
  rewrite <- Erows in Hsave, Hread.
  exists w1. split; [exact Hsave|]. rewrite Hread. unfold format_for_csv.
  pose proof (format_loop_read events None) as H. cbn [running_month] in H.
  rewrite H by discriminate. reflexivity.
Qed.

Lemma formatted_events_reach_the_reader_witness :
  Forall printable [event_with_comma] /\ Exists named [event_with_comma]
  /\ is_published "tech_week_events.csv" = false
  /\ exists w1,
       save_to_csv (format_for_csv [event_with_comma])
                   "tech_week_events.csv" empty_world = (w1, Ok tt)
       /\ read_csv "tech_week_events.csv" w1
          = (w1, Ok (rows_with_months "" [event_with_comma])).
Proof.
  assert (H1 : Forall printable [event_with_comma]).
  { constructor; [|constructor]. unfold printable. repeat split; reflexivity. }
  assert (H2 : Exists named [event_with_comma]) by (left; reflexivity).
  assert (H3 : is_published "tech_week_events.csv" = false) by reflexivity.
  split; [exact H1|]. split; [exact H2|]. split; [exact H3|].
  exact (formatted_events_reach_the_reader _ "tech_week_events.csv" empty_world
           H1 H2 H3).
Defined.

End SaveThenRead.

(* ===================================================================== *)
(** * The entry point of the extractor                                    *)
(* ===================================================================== *)

Section ExtractorMain.
Import ParseTechWeek MergeEvents TechWeekMain.

Variable html_unescape : string -> string.
Variable BeautifulSoup : string -> node.







End ExtractorMain.

(* ===================================================================== *)
(** * The sort of the extractor                                           *)
(* ===================================================================== *)

Section ExtractorSort.
Import ParseTechWeek MergeEvents TechWeekMain.

Lemma table_get_in {A} (table : list (string * A)) (k : string) (default : A) :
  table_get table k default = default
  \/ exists key, In (key, table_get table k default) table.
Proof.
  unfold table_get. destruct (List.find _ table) as [[key v]|] eqn:E; [|left; reflexivity].
  right. exists key. apply List.find_some in E. exact (proj1 E).
Qed.

Lemma month_number_range (month_str : string) :
  (1 <= table_get months_order month_str
          (table_get short_months_order month_str 1) <= 12)%Z.
Proof.
  assert (Hshort : (1 <= table_get short_months_order month_str 1 <= 12)%Z).
  { destruct (table_get_in short_months_order month_str 1%Z) as [-> | [key Hin]];
      [lia|].
    revert Hin. generalize (table_get short_months_order month_str 1%Z). intros n Hin.
    cbn [short_months_order In] in Hin.
    repeat (destruct Hin as [Hin | Hin]; [injection Hin as _ <-; lia|]).
    contradiction. }
  revert Hshort. generalize (table_get short_months_order month_str 1%Z).
  intros default Hdefault.
  destruct (table_get_in months_order month_str default) as [-> | [key Hin]];
    [exact Hdefault|].
  revert Hin. generalize (table_get months_order month_str default). intros n Hin.
  cbn [months_order In] in Hin.
  repeat (destruct Hin as [Hin | Hin]; [injection Hin as _ <-; lia|]).
  contradiction.
Qed.

(** X14. The sort of the extractor is a stable sort by month number and
    day: the records come out rearranged, in the order of their keys, and
    records with the same key keep the order they had.  The month number of
    every key is between 1 and 12, whatever the month of the record reads. *)
Theorem extractor_sort_is_a_stable_sort (events : list EventRecord) :
  Permutation events (sort_for_csv events)
  /\ Sorted (key_order parse_date_for_sort) (sort_for_csv events)
  /\ (forall k, List.filter (fun event => key_eqb (parse_date_for_sort event) k)
                  (sort_for_csv events)
                = List.filter (fun event => key_eqb (parse_date_for_sort event) k)
                    events)
  /\ Forall (fun event => (1 <= fst (parse_date_for_sort event) <= 12)%Z)
            (sort_for_csv events).
Proof.
  destruct (sorted_with_spec parse_date_for_sort events) as [Hperm [Hsorted Hstable]].
  split; [exact Hperm|]. split; [exact Hsorted|]. split; [exact Hstable|].
  apply List.Forall_forall. intros event _. apply month_number_range.
Qed.

End ExtractorSort.

(* ===================================================================== *)
(** * The entry point of the merger                                       *)
(* ===================================================================== *)

Section MergerMain.
Import ParseTechWeek MergeEvents.






End MergerMain.

(* ===================================================================== *)
(** * The key of a parsed record                                          *)
(* ===================================================================== *)

Section ExtractorKey.
Import ParseTechWeek MergeEvents TechWeekMain.

(** ** [int(str(n))] *)











End ExtractorKey.

(* ===================================================================== *)
(** * The attribution and the duplicate test                              *)
(* ===================================================================== *)

Section Attribution.
Import ParseTechWeek MergeEvents.

Lemma replace_absent (old new s : string) :
  contains old s = false -> replace old new s = s.
Proof.
  unfold replace. induction s as [|c s IH]; [reflexivity|].
  intros H. cbn [contains] in H. apply orb_false_iff in H. destruct H as [Hstart Hrest].
  cbn [replace_from]. rewrite Hstart, (IH Hrest). reflexivity.
Qed.

(** No occurrence of the marker begins in a title and ends in the
    attribution appended to it. *)
Lemma marker_not_across (s : string) :
  startswith MARKER s = false -> startswith MARKER (s +:+ " [Tech Week]") = false.
Proof.
  unfold MARKER.
  do 11 (destruct s as [|? s];
         [intros _; cbv [String.append startswith];
          repeat match goal with
                 | |- context [ascii_eqb ?a ?b] =>
                     lazymatch b with
                     | Ascii _ _ _ _ _ _ _ _ => change (ascii_eqb a b) with false
                     end
                 end;
          rewrite ?andb_false_r; reflexivity|]).
  intros H. exact H.
Qed.

Lemma replace_attribution (title : string) :
  contains MARKER title = false ->
  replace MARKER "" (title +:+ " [Tech Week]") = title +:+ " ".
Proof.
  unfold replace. induction title as [|c title IH]; [reflexivity|].
  intros H. cbn [contains] in H. apply orb_false_iff in H. destruct H as [Hstart Hrest].
  change (String c title +:+ " [Tech Week]") with (String c (title +:+ " [Tech Week]")).
  cbn [replace_from].
  change (String c (title +:+ " [Tech Week]")) with (String c title +:+ " [Tech Week]").
  rewrite (marker_not_across _ Hstart), (IH Hrest). reflexivity.
Qed.

Lemma rstrip_app_space (s : string) : rstrip (s +:+ " ") = rstrip s.
Proof.
  induction s as [|c s IH]; [reflexivity|].
  change (String c s +:+ " ") with (String c (s +:+ " ")). cbn [rstrip].
  rewrite IH. reflexivity.
Qed.

Lemma lstrip_app_space (s : string) :
  lstrip (s +:+ " ") = if is_empty (lstrip s) then "" else lstrip s +:+ " ".
Proof.
  induction s as [|c s IH]; [reflexivity|].
  change (String c s +:+ " ") with (String c (s +:+ " ")). cbn [lstrip].
  destruct (isspace c); [exact IH | reflexivity].
Qed.

Lemma strip_app_space (s : string) : strip (s +:+ " ") = strip s.
Proof.
  unfold strip. rewrite lstrip_app_space.
  destruct (lstrip s) as [|c t] eqn:E; [reflexivity|]. cbn [is_empty].
  apply rstrip_app_space.
Qed.

Lemma cleaned_attributed_title (title : string) :
  strip (replace MARKER "" (attributed_title title)) = strip (replace MARKER "" title).
Proof.
  unfold attributed_title. destruct (contains MARKER title) eqn:E; cbn [negb];
    [reflexivity|].
  rewrite (replace_attribution _ E), (replace_absent _ _ _ E). apply strip_app_space.
Qed.

(** X17. The attribution the formatter adds is invisible to the duplicate
    test: the row the formatter makes of a title and a row that carries the
    title itself have the same cleaned title, so the merger takes them for
    duplicates, whatever the threshold. *)
Theorem attribution_is_invisible
    (shown title : string) (event : EventRecord) (cv_event : Row)
    (threshold : pyfloat) :
  cv_event !! "Event" = Some (VStr title) ->
  cleaned_title (csv_row shown (attributed_title title) event) = cleaned_title cv_event
  /\ is_duplicate (csv_row shown (attributed_title title) event) cv_event threshold
     = Ok true.
Proof.
  intros Hcv.
  assert (Htw : csv_row shown (attributed_title title) event !! "Event"
                = Some (VStr (attributed_title title))) by reflexivity.
  assert (Hsame : cleaned_title (csv_row shown (attributed_title title) event)
                  = cleaned_title cv_event).
  { unfold cleaned_title, get. rewrite Htw, Hcv. apply cleaned_attributed_title. }
  split; [exact Hsame|].
  unfold is_duplicate, clean_name, get. rewrite Htw, Hcv. cbn [bind].
  unfold cleaned_title, get in Hsame. rewrite Htw, Hcv in Hsame.
  rewrite Hsame, str_eqb_refl. reflexivity.
Qed.

Lemma attribution_is_invisible_witness :
  row_ai_meetup !! "Event" = Some (VStr "AI Meetup")
  /\ cleaned_title (csv_row "" (attributed_title "AI Meetup") event_plain)
     = cleaned_title row_ai_meetup
  /\ is_duplicate (csv_row "" (attributed_title "AI Meetup") event_plain)
                  row_ai_meetup default_threshold = Ok true.
Proof.
  assert (H1 : row_ai_meetup !! "Event" = Some (VStr "AI Meetup")) by reflexivity.
  split; [exact H1|].
  exact (attribution_is_invisible "" "AI Meetup" event_plain row_ai_meetup
           default_threshold H1).
Defined.

End Attribution.

(* ===================================================================== *)
(** * The months the writer leaves out                                    *)
(* ===================================================================== *)

Section WriterEncoding.
Import ParseTechWeek MergeEvents.

Lemma output_rows_csv_row (current_month : option value) (shown title : string)
    (event : EventRecord) (rest : list Row) :
  rows_of_records (output_rows current_month (csv_row shown title event :: rest))
  = (if negb (is_empty shown) && negb (bool_decide (Some (VStr shown) = current_month))
     then csv_row shown title event
     else csv_row "" title event)
    :: rows_of_records
         (output_rows
            (if negb (is_empty shown)
                && negb (bool_decide (Some (VStr shown) = current_month))
             then Some (VStr shown) else current_month) rest).
Proof.
  cbn [output_rows].
  assert (Hmonth : get (csv_row shown title event) "Month" (VStr "") = VStr shown)
    by reflexivity.
  rewrite Hmonth.
  assert (Htruthy : truthy (Some (VStr shown)) = negb (is_empty shown))
    by (destruct shown; reflexivity).
  rewrite Htruthy.
  destruct (negb (is_empty shown) && negb (bool_decide (Some (VStr shown) = current_month)));
    reflexivity.
Qed.

Lemma written_rows_read (events : list Row) :
  Forall formatted events ->
  forall current_month running, same_month current_month running ->
  read_rows running (rows_of_records (output_rows current_month events))
  = read_rows running events.
Proof.
  intros H. induction H as [|row rest [shown [title [event ->]]] _ IH];
    intros current running Hsame; [reflexivity|].
  rewrite output_rows_csv_row, !read_rows_cons.
  set (displayed := negb (is_empty shown)
                    && negb (bool_decide (Some (VStr shown) = current))).
  assert (Hrow : with_month running (if displayed then csv_row shown title event
                                     else csv_row "" title event)
                 = with_month running (csv_row shown title event)
                 /\ month_after running (if displayed then csv_row shown title event
                                         else csv_row "" title event)
                    = month_after running (csv_row shown title event)
                 /\ same_month (if displayed then Some (VStr shown) else current)
                               (month_after running (csv_row shown title event))).
  { rewrite !month_after_csv_row. unfold displayed.
    destruct shown as [|c shown]; cbn [is_empty negb andb].
    - rewrite with_month_csv_row, month_after_csv_row. cbn [is_empty].
      split; [reflexivity | split; [reflexivity | exact Hsame]].
    - destruct (bool_decide (Some (VStr (String c shown)) = current)) eqn:E;
        cbn [negb].
      + apply bool_decide_eq_true in E.
        destruct Hsame as [[Hnone _] | [Hsome Hne]]; [congruence|].
        assert (Hrun : running = String c shown) by congruence.
        rewrite !with_month_csv_row, month_after_csv_row. cbn [is_empty].
        rewrite Hrun. split; [reflexivity | split; [reflexivity|]].
        right. split; [congruence | discriminate].
      + split; [reflexivity | split; [reflexivity|]].
        right. split; [reflexivity | discriminate]. }
  destruct Hrow as [-> [-> Hnext]]. rewrite (IH _ _ Hnext). reflexivity.
Qed.

(** X18. The months the writer leaves out are the months the reader puts
    back: for rows of the six columns, reading the records the writer
    makes of them gives what reading the rows themselves gives. *)
Theorem writer_encoding_is_invisible (events : list Row) :
  Forall formatted events ->
  read_rows "" (rows_of_records (output_rows None events)) = read_rows "" events.
Proof.
  intros H. apply (written_rows_read events H). left. split; reflexivity.
Qed.

Lemma writer_encoding_is_invisible_witness :
  Forall formatted [row_ai_meetup; row_founders_dinner]
  /\ read_rows "" (rows_of_records (output_rows None [row_ai_meetup; row_founders_dinner]))
     = read_rows "" [row_ai_meetup; row_founders_dinner].
Proof.
  assert (H : Forall formatted [row_ai_meetup; row_founders_dinner]).
  { constructor; [|constructor; [|constructor]].
    - exists "March", "AI Meetup",
        (mkEvent "" "" "March 5" "6:00pm" "San Francisco, CA" "" false "" "").
      reflexivity.
    - exists "March", "Founders Dinner",
        (mkEvent "" "" "March 9" "7:00pm" "San Francisco, CA" "" false "" "").
      reflexivity. }
  split; [exact H|]. exact (writer_encoding_is_invisible _ H).
Defined.

End WriterEncoding.

(* ===================================================================== *)
(** * Reading what was read                                               *)
(* ===================================================================== *)

Section ReaderTwice.
Import MergeEvents.

Lemma with_month_again (current_month : string) (row : Row) :
  with_month current_month (with_month current_month row)
  = with_month current_month row
  /\ month_after current_month (with_month current_month row)
     = month_after current_month row.
Proof.
  unfold with_month, month_after.
  destruct (truthy (row !! "Month")) eqn:E.
  - rewrite E. split; reflexivity.
  - destruct current_month as [|c cm]; cbn [is_empty negb].
    + rewrite E. split; reflexivity.
    + rewrite lookup_insert_eq. cbn [truthy]. split; [reflexivity|].
      destruct (row !! "Month") as [[|[|d m]]|]; try reflexivity; discriminate E.
Qed.

Lemma read_rows_fixed (rows : list Row) (current_month : string) :
  Forall has_month rows -> Forall (fun row => is_event row = true) rows ->
  read_rows current_month rows = rows.
Proof.
  intros Hmonths. revert current_month.
  induction Hmonths as [|row rest Hrow _ IH]; intros cm Hevents; [reflexivity|].
  inversion Hevents as [|? ? Hevent Hrest]; subst.
  rewrite read_rows_cons.
  assert (Hsame : with_month cm row = row)
    by (unfold with_month; unfold has_month in Hrow; rewrite Hrow; reflexivity).
  rewrite Hsame, Hevent, (IH _ Hrest). reflexivity.
Qed.

Lemma month_after_empty (current_month : string) (row : Row) :
  is_empty (month_after current_month row) = true ->
  current_month = "" /\ month_after current_month row = "".
Proof.
  unfold month_after.
  destruct (row !! "Month") as [[|[|c m]]|]; try discriminate;
    intros H; apply is_empty_true in H; subst; split; reflexivity.
Qed.

(** X19. The reader is a projection: read again, under the same running
    month, the rows it returned come back as they are.  None is dropped
    and none changes its month. *)
Theorem read_rows_twice (rows : list Row) (current_month : string) :
  read_rows current_month (read_rows current_month rows)
  = read_rows current_month rows.
Proof.
  revert current_month. induction rows as [|row rest IH]; intros cm; [reflexivity|].
  rewrite read_rows_cons. destruct (is_event (with_month cm row)) eqn:E.
  - rewrite read_rows_cons.
    destruct (with_month_again cm row) as [-> ->]. rewrite E, IH. reflexivity.
  - destruct (is_empty (month_after cm row)) eqn:Eafter.
    + destruct (month_after_empty _ _ Eafter) as [-> ->]. apply IH.
    + apply read_rows_fixed; [apply read_rows_months, Eafter | apply read_rows_events].
Qed.

End ReaderTwice.

(* ===================================================================== *)
(** * What the published file holds                                       *)
(* ===================================================================== *)

Section PublishedFile.
Import ParseTechWeek MergeEvents.

Lemma output_rows_cons_csv_row (current_month : option value) (shown title : string)
    (event : EventRecord) (rest : list Row) :
  output_rows current_month (csv_row shown title event :: rest)
  = [VStr (if negb (is_empty shown)
              && negb (bool_decide (Some (VStr shown) = current_month))
           then shown else "");
     VStr title; VStr (date event); VStr (time event); VStr (location event);
     VStr (url event)]
    :: output_rows
         (if negb (is_empty shown)
             && negb (bool_decide (Some (VStr shown) = current_month))
          then Some (VStr shown) else current_month) rest.
Proof.
  cbn [output_rows].
  assert (Hmonth : get (csv_row shown title event) "Month" (VStr "") = VStr shown)
    by reflexivity.
  rewrite Hmonth.
  assert (Htruthy : truthy (Some (VStr shown)) = negb (is_empty shown))
    by (destruct shown; reflexivity).
  rewrite Htruthy.
  destruct (negb (is_empty shown) && negb (bool_decide (Some (VStr shown) = current_month)));
    reflexivity.
Qed.

Lemma six_columns_csv_row (row : Row) :
  six_columns row ->
  exists shown title event,
    row = csv_row shown title event
    /\ no_newline shown = true /\ no_newline title = true /\ printable event.
Proof.
  intros [record [[Hlen Hline] ->]].
  destruct record as [|a [|b [|c [|d [|e [|f [|g record]]]]]]]; try discriminate Hlen.
  exists a, b, (mkEvent "" "" c d e f false "" "").
  unfold one_line in Hline.
  repeat match goal with
         | H : Forall _ (_ :: _) |- _ => inversion H; subst; clear H
         end.
  split; [reflexivity|]. unfold printable. cbn [name date time location url month].
  repeat split; first [assumption | reflexivity].
Qed.

Lemma output_rows_records (events : list Row) :
  Forall six_columns events ->
  forall current_month,
    Forall six_fields (map (map csv_str) (output_rows current_month events))
    /\ map writerow (output_rows current_month events)
       = map record_text (map (map csv_str) (output_rows current_month events)).
Proof.
  intros H. induction H as [|row rest Hrow _ IH]; intros current.
  - split; [constructor | reflexivity].
  - destruct (six_columns_csv_row row Hrow)
      as [shown [title [event [-> [Hshown [Htitle Hevent]]]]]].
    destruct Hevent as [_ [Hdate [Htime [Hlocation [Hurl _]]]]].
    rewrite output_rows_cons_csv_row. cbn [map].
    match goal with
    | |- context [output_rows ?c rest] => destruct (IH c) as [Hfields Htext]
    end.
    split.
    + constructor; [|exact Hfields]. split; [reflexivity|].
      unfold one_line. cbn [csv_str].
      constructor; [destruct (_ && _); [exact Hshown | reflexivity]|].
      repeat (constructor; [assumption|]). constructor.
    + rewrite Htext. reflexivity.
Qed.

Lemma header_parsed :
  parse_line parse_reset header = Ok (mkReader START_RECORD fieldnames "").
Proof. vm_compute. reflexivity. Qed.

Lemma six_columns_formatted (events : list Row) :
  Forall six_columns events -> Forall formatted events.
Proof.
  intros H. eapply Forall_impl; [exact H|]. intros row Hrow.
  destruct (six_columns_csv_row row Hrow) as [shown [title [event [-> _]]]].
  eexists _, _, _. reflexivity.
Qed.

(** X20. The published file is the banner, the header and one line for
    each event.  Read from the header on, it gives back the events: the
    header names the six columns, and the rows, read as the reader reads
    rows, are what the reader makes of the events themselves.  The events
    hold the six columns, without a newline in a field. *)
Theorem published_file_holds_the_events (sorted_events : list Row) :
  Forall six_columns sorted_events ->
  length (readlines (output_text sorted_events)) = 7 + length sorted_events
  /\ take 7 (readlines (output_text sorted_events)) = banner ++ [header]
  /\ exists rows,
       DictReader (drop 6 (readlines (output_text sorted_events))) None = Ok rows
       /\ length rows = length sorted_events
       /\ read_rows "" rows = read_rows "" sorted_events.
Proof.
  intros H. destruct (output_rows_records sorted_events H None) as [Hfields Htext].
  set (records := map (map csv_str) (output_rows None sorted_events)) in *.
  assert (Hlen : length records = length sorted_events).
  { unfold records. rewrite length_map. clear.
    generalize (@None value). induction sorted_events as [|row rest IH]; intros c;
      [reflexivity|].
    cbn [output_rows]. destruct (_ && _); cbn [length]; rewrite IH; reflexivity. }
  assert (Hlines : readlines (output_text sorted_events)
                   = banner ++ header :: map record_line records).
  { rewrite output_text_lines. unfold rows_text. rewrite Htext.
    rewrite readlines_records by (apply six_fields_one_line, Hfields). reflexivity. }
  rewrite Hlines. split; [|split].
  - rewrite length_app. cbn [length]. rewrite length_map, Hlen. reflexivity.
  - reflexivity.
  - change (drop 6 (banner ++ header :: map record_line records))
      with (header :: map record_line records).
    exists (map (dict_of_row fieldnames) records). split; [|split].
    + unfold DictReader, csv_reader. rewrite reader_rows_cons, header_parsed.
      cbn [bind state_is_start_record state fields].
      pose proof (csv_reader_records records Hfields) as Hrows.
      unfold csv_reader in Hrows. rewrite Hrows. cbn [bind].
      rewrite (six_fields_kept records Hfields). reflexivity.
    + rewrite length_map. exact Hlen.
    + unfold records. rewrite map_map.
      apply (written_rows_read sorted_events (six_columns_formatted _ H)).
      left. split; reflexivity.
Qed.

Lemma published_file_holds_the_events_witness :
  Forall six_columns [dict_of_row fieldnames record_to_quote]
  /\ length (readlines (output_text [dict_of_row fieldnames record_to_quote]))
     = 7 + length [dict_of_row fieldnames record_to_quote]
  /\ take 7 (readlines (output_text [dict_of_row fieldnames record_to_quote]))
     = banner ++ [header]
  /\ exists rows,
       DictReader (drop 6 (readlines (output_text [dict_of_row fieldnames record_to_quote])))
                  None = Ok rows
       /\ length rows = length [dict_of_row fieldnames record_to_quote]
       /\ read_rows "" rows = read_rows "" [dict_of_row fieldnames record_to_quote].
Proof.
  assert (H : Forall six_columns [dict_of_row fieldnames record_to_quote]).
  { constructor; [|constructor]. exists record_to_quote.
    split; [|reflexivity]. split; [reflexivity|].
    unfold one_line, record_to_quote. repeat constructor. }
  split; [exact H|]. exact (published_file_holds_the_events _ H).
Defined.

End PublishedFile.
